(** * UDP/IPv4 network abstraction layer: [OpenUDP]

    A shallow embedding of [modules/misc/network/ipv4.c].  The C function
    talks to the operating system (getaddrinfo, socket, setsockopt, bind,
    connect, close) and to the VLC core (message log, configuration store,
    object variables).  Those collaborators are an [environment] of oracles;
    the function itself is a computation in a small state monad with early
    [return], whose state records the calls that were made, the messages
    that were logged, the variable store and the [network_socket_t] the
    function writes its results to.  The conditional compilation of the C
    file is a [platform] record of booleans. *)

From Stdlib Require Import Ascii.
From stdpp Require Import base numbers list gmap strings.

Open Scope Z_scope.

(** ** The build configuration

    One boolean per preprocessor symbol the function body branches on. *)
Record platform := Platform {
  WIN32 : bool;                        (* defined(WIN32) || defined(UNDER_CE) *)
  HAVE_SO_REUSEPORT : bool;            (* #ifdef SO_REUSEPORT *)
  HAVE_SO_RCVBUF : bool;               (* #ifdef SO_RCVBUF *)
  SYS_BEOS : bool;                     (* defined(SYS_BEOS) *)
  HAVE_IP_ADD_SOURCE_MEMBERSHIP : bool;(* #ifdef IP_ADD_SOURCE_MEMBERSHIP *)
  HAVE_IP_MULTICAST_IF : bool;         (* #ifdef IP_MULTICAST_IF *)
  WORDS_BIGENDIAN : bool               (* byte order of the host *)
}.

(** ** Constants and 32-bit addresses *)

(** The two return values, as include/vlc/vlc.h defines them. *)
Definition VLC_SUCCESS : Z := 0.
Definition VLC_EGENERIC : Z := -666.

Definition INADDR_ANY : Z := 0x00000000.
Definition INADDR_NONE : Z := 0xFFFFFFFF.

(** [IN_CLASSD(a)]: the top four bits are 1110. *)
Definition IN_CLASSD (a : Z) : bool :=
  Z.land a 0xf0000000 =? 0xe0000000.
Definition IN_MULTICAST (a : Z) : bool := IN_CLASSD a.

(** Byte reversal of a 32-bit word. *)
Definition bswap32 (x : Z) : Z :=
  Z.lor (Z.lor (Z.shiftl (Z.land x 0xFF) 24)
               (Z.shiftl (Z.land x 0xFF00) 8))
        (Z.lor (Z.land (Z.shiftr x 8) 0xFF00)
               (Z.land (Z.shiftr x 24) 0xFF)).

(** [ntohl] and [htonl] on a 32-bit word: the identity on a big-endian
    host, a byte swap on a little-endian one. *)
Definition ntohl (pf : platform) (x : Z) : Z :=
  if WORDS_BIGENDIAN pf then Z.land x 0xFFFFFFFF else bswap32 x.
Definition htonl (pf : platform) (x : Z) : Z := ntohl pf x.

(** ** Data *)

(** [struct sockaddr_in] ([sin_family] is always [AF_INET] here);
    [sin_addr] holds [sin_addr.s_addr], in network byte order. *)
Record sockaddr_in := Sockaddr { sin_addr : Z; sin_port : Z }.

(** [struct ip_mreq_source] *)
Record ip_mreq_source := MreqSource {
  imr_multiaddr : Z;
  imr_sourceaddr : Z;
  imr_interface : Z
}.

(** The fields of [network_socket_t] the function reads and writes. *)
Record network_socket_t := NetworkSocket {
  psz_bind_addr : string;
  i_bind_port : Z;
  psz_server_addr : string;
  i_server_port : Z;
  i_ttl : Z;
  i_handle : Z;
  i_mtu : Z
}.

Inductive sockopt_level := SOL_SOCKET | IPPROTO_IP.

Inductive sockopt_name :=
  | SO_REUSEADDR | SO_REUSEPORT | SO_RCVBUF | SO_SNDBUF | SO_BROADCAST
  | IP_ADD_SOURCE_MEMBERSHIP | IP_MULTICAST_IF | IP_MULTICAST_TTL.

(** The argument of a [setsockopt]: the pointed-to object, whose
    constructor fixes the [optlen] that is passed. *)
Inductive optval :=
  | OptInt (v : Z)                     (* int, sizeof = 4 *)
  | OptUChar (v : Z)                   (* unsigned char, sizeof = 1 *)
  | OptInAddr (s_addr : Z)             (* struct in_addr *)
  | OptMreqSource (imr : ip_mreq_source).

(** Calls to the operating system and to the VLC core, as they are logged. *)
Inductive call :=
  | CGetaddrinfo (node : string) (port : Z)
  | CSocket
  | CSetsockopt (fd : Z) (level : sockopt_level) (name : sockopt_name)
                (val : optval)
  | CBind (fd : Z) (addr : sockaddr_in)
  | CConnect (fd : Z) (addr : sockaddr_in)
  | CClose (fd : Z)
  | CConfigGetPsz (name : string)
  | CConfigGetInt (name : string)
  | CVarGet (name : string)
  | CVarCreate (name : string).

Inductive msg_type := MSG_DBG | MSG_WARN | MSG_ERR.

#[global] Instance sockopt_level_eq_dec : EqDecision sockopt_level.
Proof. solve_decision. Defined.
#[global] Instance sockopt_name_eq_dec : EqDecision sockopt_name.
Proof. solve_decision. Defined.
#[global] Instance sockaddr_in_eq_dec : EqDecision sockaddr_in.
Proof. solve_decision. Defined.
#[global] Instance ip_mreq_source_eq_dec : EqDecision ip_mreq_source.
Proof. solve_decision. Defined.
#[global] Instance optval_eq_dec : EqDecision optval.
Proof. solve_decision. Defined.
#[global] Instance call_eq_dec : EqDecision call.
Proof. solve_decision. Defined.
#[global] Instance msg_type_eq_dec : EqDecision msg_type.
Proof. solve_decision. Defined.

(** ** The environment

    What the operating system, the C library and the VLC core answer.
    [vlc_getaddrinfo_] gives the error code and the first address of the
    result list; the integer oracles give the value the C call returns.
    An answer depends on the arguments of the call only. *)
Record environment := Environment {
  vlc_getaddrinfo_ : string → Z → Z * sockaddr_in;
  os_socket : Z;
  os_setsockopt : Z → sockopt_level → sockopt_name → optval → Z;
  os_bind : Z → sockaddr_in → Z;
  os_connect : Z → sockaddr_in → Z;
  inet_addr : string → Z;
  config_psz : string → option string;
  config_int : string → Z;
  (* the value a variable created with VLC_VAR_DOINHERIT starts with *)
  var_inherit : string → Z;
  (* what an automatic [vlc_value_t] holds before it is written *)
  stack_val : Z
}.

(** ** The state and the monad *)

Record world := World {
  p_private : network_socket_t;
  calls : list call;
  msgs : list (msg_type * string);
  vars : gmap string Z
}.

(** A statement either falls through to the next one with a value, or
    executes [return rc]. *)
Inductive result (A : Type) :=
  | Next (a : A)
  | Returned (rc : Z).
Arguments Next {A} a.
Arguments Returned {A} rc.

Definition M (A : Type) : Type := world → result A * world.

#[global] Instance M_ret : MRet M := λ A a w, (Next a, w).
#[global] Instance M_bind : MBind M := λ A B f m w,
  match m w with
  | (Next a, w') => f a w'
  | (Returned rc, w') => (Returned rc, w')
  end.

Definition return_ {A} (rc : Z) : M A := λ w, (Returned rc, w).

(** The value of a C function whose body is [m]. *)
Definition call_function (m : M Z) (w : world) : Z * world :=
  match m w with
  | (Next rc, w') => (rc, w')
  | (Returned rc, w') => (rc, w')
  end.

Definition log_call (c : call) : M unit := λ w,
  (Next (), World (p_private w) (calls w ++ [c]) (msgs w) (vars w)).

Definition msg (t : msg_type) (text : string) : M unit := λ w,
  (Next (), World (p_private w) (calls w) (msgs w ++ [(t, text)]) (vars w)).
Definition msg_Dbg := msg MSG_DBG.
Definition msg_Warn := msg MSG_WARN.
Definition msg_Err := msg MSG_ERR.

Definition get_p_socket : M network_socket_t := λ w, (Next (p_private w), w).

(** [p_socket->i_handle = h] and [p_socket->i_mtu = m] *)
Definition with_handle (s : network_socket_t) (h : Z) : network_socket_t :=
  NetworkSocket (psz_bind_addr s) (i_bind_port s) (psz_server_addr s)
    (i_server_port s) (i_ttl s) h (i_mtu s).

Definition with_mtu (s : network_socket_t) (m : Z) : network_socket_t :=
  NetworkSocket (psz_bind_addr s) (i_bind_port s) (psz_server_addr s)
    (i_server_port s) (i_ttl s) (i_handle s) m.

Definition set_i_handle (h : Z) : M unit := λ w,
  (Next (), World (with_handle (p_private w) h) (calls w) (msgs w) (vars w)).

Definition set_i_mtu (m : Z) : M unit := λ w,
  (Next (), World (with_mtu (p_private w) m) (calls w) (msgs w) (vars w)).

Definition when (b : bool) (m : M unit) : M unit := if b then m else mret ().

Definition empty_string (s : string) : bool :=
  match s with EmptyString => true | String _ _ => false end.

(** ** The function *)

Section OpenUDP.
Variable pf : platform.
Variable env : environment.

(** *** System calls: log the call, answer from the environment *)

Definition vlc_getaddrinfo (node : string) (port : Z)
  : M (Z * sockaddr_in) :=
  log_call (CGetaddrinfo node port);; mret (vlc_getaddrinfo_ env node port).

Definition socket : M Z :=
  log_call CSocket;; mret (os_socket env).

Definition setsockopt (fd : Z) (level : sockopt_level)
    (name : sockopt_name) (val : optval) : M Z :=
  log_call (CSetsockopt fd level name val);;
  mret (os_setsockopt env fd level name val).

Definition bind (fd : Z) (addr : sockaddr_in) : M Z :=
  log_call (CBind fd addr);; mret (os_bind env fd addr).

Definition connect (fd : Z) (addr : sockaddr_in) : M Z :=
  log_call (CConnect fd addr);; mret (os_connect env fd addr).

Definition close (fd : Z) : M unit := log_call (CClose fd).

Definition config_GetPsz (name : string) : M (option string) :=
  log_call (CConfigGetPsz name);; mret (config_psz env name).

Definition config_GetInt (name : string) : M Z :=
  log_call (CConfigGetInt name);; mret (config_int env name).

Definition VLC_ENOVAR : Z := -30.

(** Modelled from the spec: [var_Get] of the VLC core (src/misc/variables.c)
    reads a variable of the session's variable store "if already
    present"; it returns [VLC_SUCCESS] and the value, or an error and
    leaves [val] as it was. *)
Definition var_Get (name : string) (val : Z) : M (Z * Z) :=
  log_call (CVarGet name);;
  ((λ w, (Next (match vars w !! name with
                | Some v => (VLC_SUCCESS, v)
                | None => (VLC_ENOVAR, val)
                end), w)) : M (Z * Z)).

(** Modelled from the spec: [var_Create] of the VLC core with
    [VLC_VAR_INTEGER | VLC_VAR_DOINHERIT] "initializes that variable to a
    configured default", the inherited value [var_inherit]; a variable
    that exists keeps its value. *)
Definition var_Create (name : string) : M unit :=
  log_call (CVarCreate name);;
  ((λ w, (Next (),
          World (p_private w) (calls w) (msgs w)
            (match vars w !! name with
             | Some _ => vars w
             | None => <[name := var_inherit env name]> (vars w)
             end))) : M unit).

(** *** BuildAddr: utility function to build a struct sockaddr_in

    [None] is the C function's [return -1], [Some a] its [return 0] with
    [*p_socket] filled with [a]. *)
Definition BuildAddr (psz_address : string) (i_port : Z)
  : M (option sockaddr_in) :=
  msg_Dbg "resolving %s:%d...";;
  '(i_val, res) ← vlc_getaddrinfo psz_address i_port;
  if negb (i_val =? 0) then
    msg_Warn "%s: %s";;
    mret None
  else
    (* Copy the first address of the host in the socket address *)
    mret (Some res).

(** The [error:] label: [goto error] runs it and leaves the function. *)
Definition goto_error {A} (i_handle : Z) : M A :=
  close i_handle;;
  return_ VLC_EGENERIC.

(** *** OpenUDP: open a UDP socket *)

(** We may want to reuse an already used socket; increase the buffer
    sizes to 1/2MB. *)
Definition tune_socket (i_handle : Z) : M unit :=
  setsockopt i_handle SOL_SOCKET SO_REUSEADDR (OptInt 1);;
  when (HAVE_SO_REUSEPORT pf)
    (setsockopt i_handle SOL_SOCKET SO_REUSEPORT (OptInt 1);; mret ());;
  when (HAVE_SO_RCVBUF pf)
    (rc ← setsockopt i_handle SOL_SOCKET SO_RCVBUF (OptInt 0x80000);
     when (rc =? -1) (msg_Dbg "cannot configure socket (SO_RCVBUF: %s)");;
     rc ← setsockopt i_handle SOL_SOCKET SO_SNDBUF (OptInt 0x80000);
     when (rc =? -1) (msg_Dbg "cannot configure socket (SO_SNDBUF: %s)")).

Definition bind_socket (i_handle : Z) (sock : sockaddr_in) : M unit :=
  if WIN32 pf && IN_MULTICAST (ntohl pf (sin_addr sock)) then
    (* Under Win32 and for multicasting, we bind to INADDR_ANY. *)
    let stupid := Sockaddr INADDR_ANY (sin_port sock) in
    rc ← bind i_handle stupid;
    if rc <? 0 then
      msg_Err "cannot bind socket (%d)";;
      goto_error i_handle
    else mret ()
  else
    (* Bind it *)
    rc ← bind i_handle sock;
    if rc <? 0 then
      msg_Err "cannot bind socket (%s)";;
      goto_error i_handle
    else mret ().

(** Allow broadcast reception if we bound on INADDR_ANY *)
Definition allow_broadcast (i_handle : Z) (psz_bind_addr : string)
  : M unit :=
  when (negb (SYS_BEOS pf))
    (when (empty_string psz_bind_addr)
       (rc ← setsockopt i_handle SOL_SOCKET SO_BROADCAST (OptInt 1);
        when (rc =? -1)
          (msg_Warn "cannot configure socket (SO_BROADCAST: %s)"))).

(** Determine interface to be used for multicast *)
Definition multicast_interface (psz_if_addr : option string) : Z :=
  match psz_if_addr with
  | Some s =>
      if negb (empty_string s) && negb (inet_addr env s =? INADDR_NONE)
      then inet_addr env s
      else INADDR_ANY
  | None => INADDR_ANY
  end.

(** Join the multicast group if the socket is a multicast address *)
Definition join_group (i_handle : Z) (sock : sockaddr_in)
    (psz_server_addr : string) : M unit :=
  psz_if_addr ← config_GetPsz "miface-addr";
  let imr :=
    MreqSource (sin_addr sock) (inet_addr env psz_server_addr)
               (multicast_interface psz_if_addr) in
  msg_Dbg "IP_ADD_SOURCE_MEMBERSHIP multicast request";;
  (* Join Multicast group with source filter *)
  rc ← setsockopt i_handle IPPROTO_IP IP_ADD_SOURCE_MEMBERSHIP
         (OptMreqSource imr);
  if rc =? -1 then
    msg_Err "Source specific multicast failed (%s) -check if your OS really supports IGMPv3";;
    goto_error i_handle
  else mret ().

(** set the time-to-live *)
Definition set_ttl (i_handle : Z) (i_ttl : Z) : M unit :=
  i_ttl ← (if i_ttl <=? 0 then config_GetInt "ttl" else mret i_ttl);
  if 0 <? i_ttl then
    let ttl := i_ttl `mod` 256 in      (* (unsigned char) i_ttl *)
    rc ← setsockopt i_handle IPPROTO_IP IP_MULTICAST_TTL (OptUChar ttl);
    if rc <? 0 then
      msg_Dbg "failed to set ttl (%s). Let's try it the integer way.";;
      rc ← setsockopt i_handle IPPROTO_IP IP_MULTICAST_TTL (OptInt i_ttl);
      if rc <? 0 then
        msg_Err "failed to set ttl (%s)";;
        goto_error i_handle
      else mret ()
    else mret ()
  else mret ().

(** set the multicast interface, then the time-to-live *)
Definition multicast_send_options (i_handle : Z) (i_ttl : Z) : M unit :=
  psz_mif_addr ← config_GetPsz "miface-addr";
  match psz_mif_addr with
  | Some s =>
      rc ← setsockopt i_handle IPPROTO_IP IP_MULTICAST_IF
             (OptInAddr (inet_addr env s));
      if rc <? 0 then
        msg_Err "failed to set multicast interface (%s).";;
        goto_error i_handle
      else mret ()
  | None => mret ()
  end;;
  set_ttl i_handle i_ttl.

Definition connect_socket (i_handle : Z) (p_socket : network_socket_t)
  : M unit :=
  (* Build socket for remote connection *)
  r ← BuildAddr (psz_server_addr p_socket) (i_server_port p_socket);
  match r with
  | None =>
      msg_Err "cannot build remote address";;
      goto_error i_handle
  | Some sock =>
      (* Connect the socket *)
      rc ← connect i_handle sock;
      (if rc =? -1 then
         msg_Err "cannot connect socket (%s)";;
         goto_error i_handle
       else mret ());;
      when (HAVE_IP_MULTICAST_IF pf
            && IN_MULTICAST
                 (ntohl pf (inet_addr env (psz_server_addr p_socket))))
        (multicast_send_options i_handle (i_ttl p_socket))
  end.

Definition attach_mtu : M unit :=
  '(rc, val) ← var_Get "mtu" (stack_val env);
  val ← (if negb (rc =? VLC_SUCCESS) then
           var_Create "mtu";;
           '(_, val) ← var_Get "mtu" val;
           mret val
         else mret val);
  set_i_mtu val.

Definition OpenUDP_body : M Z :=
  p_socket ← get_p_socket;
  set_i_handle (-1);;
  (* Build the local socket *)
  r ← BuildAddr (psz_bind_addr p_socket) (i_bind_port p_socket);
  match r with
  | None => return_ VLC_EGENERIC
  | Some sock =>
      (* Open a SOCK_DGRAM (UDP) socket, in the AF_INET domain *)
      i_handle ← socket;
      (if i_handle =? -1 then
         msg_Err "cannot create socket (%s)";;
         return_ VLC_EGENERIC
       else mret ());;
      tune_socket i_handle;;
      bind_socket i_handle sock;;
      allow_broadcast i_handle (psz_bind_addr p_socket);;
      (if HAVE_IP_ADD_SOURCE_MEMBERSHIP pf
          && IN_MULTICAST (ntohl pf (sin_addr sock))
       then join_group i_handle sock (psz_server_addr p_socket)
       else connect_socket i_handle p_socket);;
      set_i_handle i_handle;;
      attach_mtu;;
      return_ 0
  end.

Definition OpenUDP : world → Z * world := call_function OpenUDP_body.

End OpenUDP.

(** The state at the call: nothing logged yet. *)
Definition init_world (p_socket : network_socket_t) (vs : gmap string Z)
  : world :=
  World p_socket [] [] vs.

Definition run (pf : platform) (env : environment)
    (p_socket : network_socket_t) (vs : gmap string Z) : Z * world :=
  OpenUDP pf env (init_world p_socket vs).


(** * Vocabulary of the verification *)

(** The host-order value of an address lies in 224.0.0.0-239.255.255.255. *)
Definition multicast_range (a : Z) : Prop := 0xE0000000 ≤ a ≤ 0xEFFFFFFF.

(** No statement of the function reads the two logs, so the state after a
    phase is the state before it with calls and messages appended. *)
Definition add_log (cs : list call) (ms : list (msg_type * string))
    (w : world) : world :=
  World (p_private w) (calls w ++ cs) (msgs w ++ ms) (vars w).

(** ** What each phase logs *)

Definition dbg_resolving : msg_type * string :=
  (MSG_DBG, "resolving %s:%d..."%string).
Definition dbg_join : msg_type * string :=
  (MSG_DBG, "IP_ADD_SOURCE_MEMBERSHIP multicast request"%string).
Definition err_join : msg_type * string :=
  (MSG_ERR, "Source specific multicast failed (%s) -check if your OS really supports IGMPv3"%string).
Definition dbg_ttl : msg_type * string :=
  (MSG_DBG, "failed to set ttl (%s). Let's try it the integer way."%string).
Definition err_ttl : msg_type * string :=
  (MSG_ERR, "failed to set ttl (%s)"%string).
Definition err_mif : msg_type * string :=
  (MSG_ERR, "failed to set multicast interface (%s)."%string).
Definition warn_broadcast : msg_type * string :=
  (MSG_WARN, "cannot configure socket (SO_BROADCAST: %s)"%string).

Section Pieces.
Variable pf : platform.
Variable env : environment.

Definition tuning_calls (fd : Z) : list call :=
  [CSetsockopt fd SOL_SOCKET SO_REUSEADDR (OptInt 1)]
  ++ (if HAVE_SO_REUSEPORT pf
      then [CSetsockopt fd SOL_SOCKET SO_REUSEPORT (OptInt 1)] else [])
  ++ (if HAVE_SO_RCVBUF pf
      then [CSetsockopt fd SOL_SOCKET SO_RCVBUF (OptInt 0x80000);
            CSetsockopt fd SOL_SOCKET SO_SNDBUF (OptInt 0x80000)]
      else []).

Definition tuning_msgs (fd : Z) : list (msg_type * string) :=
  if HAVE_SO_RCVBUF pf then
    (if os_setsockopt env fd SOL_SOCKET SO_RCVBUF (OptInt 0x80000) =? -1
     then [(MSG_DBG, "cannot configure socket (SO_RCVBUF: %s)"%string)]
     else [])
    ++ (if os_setsockopt env fd SOL_SOCKET SO_SNDBUF (OptInt 0x80000) =? -1
        then [(MSG_DBG, "cannot configure socket (SO_SNDBUF: %s)"%string)]
        else [])
  else [].

(** The address [bind] is called on. *)
Definition bind_target (sock : sockaddr_in) : sockaddr_in :=
  if WIN32 pf && IN_MULTICAST (ntohl pf (sin_addr sock))
  then Sockaddr INADDR_ANY (sin_port sock) else sock.

Definition bind_error (sock : sockaddr_in) : msg_type * string :=
  if WIN32 pf && IN_MULTICAST (ntohl pf (sin_addr sock))
  then (MSG_ERR, "cannot bind socket (%d)"%string)
  else (MSG_ERR, "cannot bind socket (%s)"%string).

Definition broadcast_option (fd : Z) : call :=
  CSetsockopt fd SOL_SOCKET SO_BROADCAST (OptInt 1).

Definition broadcast_calls (fd : Z) (bind_addr : string) : list call :=
  if negb (SYS_BEOS pf) && empty_string bind_addr
  then [broadcast_option fd] else [].

Definition broadcast_msgs (fd : Z) (bind_addr : string)
  : list (msg_type * string) :=
  if negb (SYS_BEOS pf) && empty_string bind_addr
     && (os_setsockopt env fd SOL_SOCKET SO_BROADCAST (OptInt 1) =? -1)
  then [warn_broadcast] else [].

(** The argument of the group join. *)
Definition join_request (sock : sockaddr_in) (server_addr : string)
  : ip_mreq_source :=
  MreqSource (sin_addr sock) (inet_addr env server_addr)
    (multicast_interface env (config_psz env "miface-addr")).

Definition join_option (fd : Z) (sock : sockaddr_in) (server_addr : string)
  : call :=
  CSetsockopt fd IPPROTO_IP IP_ADD_SOURCE_MEMBERSHIP
    (OptMreqSource (join_request sock server_addr)).

Definition join_calls (fd : Z) (sock : sockaddr_in) (server_addr : string)
  : list call :=
  [CConfigGetPsz "miface-addr"; join_option fd sock server_addr].

(** The time-to-live that is applied: the configured one if positive,
    else the default of the configuration store. *)
Definition effective_ttl (i_ttl : Z) : Z :=
  if i_ttl <=? 0 then config_int env "ttl" else i_ttl.

Definition ttl_uchar (fd t : Z) : call :=
  CSetsockopt fd IPPROTO_IP IP_MULTICAST_TTL (OptUChar (t `mod` 256)).
Definition ttl_int (fd t : Z) : call :=
  CSetsockopt fd IPPROTO_IP IP_MULTICAST_TTL (OptInt t).

Definition uchar_rejected (fd t : Z) : bool :=
  os_setsockopt env fd IPPROTO_IP IP_MULTICAST_TTL (OptUChar (t `mod` 256))
  <? 0.
Definition int_rejected (fd t : Z) : bool :=
  os_setsockopt env fd IPPROTO_IP IP_MULTICAST_TTL (OptInt t) <? 0.

Definition ttl_options (fd t : Z) : list call :=
  if 0 <? t
  then ttl_uchar fd t :: (if uchar_rejected fd t then [ttl_int fd t] else [])
  else [].

Definition ttl_calls (fd i_ttl : Z) : list call :=
  (if i_ttl <=? 0 then [CConfigGetInt "ttl"] else [])
  ++ ttl_options fd (effective_ttl i_ttl).

Definition ttl_msgs (fd i_ttl : Z) : list (msg_type * string) :=
  let t := effective_ttl i_ttl in
  if (0 <? t) && uchar_rejected fd t then [dbg_ttl] else [].

Definition ttl_fails (fd i_ttl : Z) : bool :=
  let t := effective_ttl i_ttl in
  (0 <? t) && uchar_rejected fd t && int_rejected fd t.

Definition mif_calls (fd : Z) : list call :=
  CConfigGetPsz "miface-addr"
  :: match config_psz env "miface-addr" with
     | Some s => [CSetsockopt fd IPPROTO_IP IP_MULTICAST_IF
                    (OptInAddr (inet_addr env s))]
     | None => []
     end.

Definition mif_fails (fd : Z) : bool :=
  match config_psz env "miface-addr" with
  | Some s => os_setsockopt env fd IPPROTO_IP IP_MULTICAST_IF
                (OptInAddr (inet_addr env s)) <? 0
  | None => false
  end.

Definition mtu_calls (vs : gmap string Z) : list call :=
  match vs !! "mtu"%string with
  | Some _ => [CVarGet "mtu"]
  | None => [CVarGet "mtu"; CVarCreate "mtu"; CVarGet "mtu"]
  end.

Definition mtu_value (vs : gmap string Z) : Z :=
  match vs !! "mtu"%string with
  | Some v => v
  | None => var_inherit env "mtu"
  end.

Definition mtu_vars (vs : gmap string Z) : gmap string Z :=
  match vs !! "mtu"%string with
  | Some _ => vs
  | None => <["mtu"%string := var_inherit env "mtu"]> vs
  end.

End Pieces.

(** ** The runs of [OpenUDP]

    Every call follows one of ten paths: one per fatal check, and the two
    successful ones. *)

Section Paths.
Variable pf : platform.
Variable env : environment.
Variable cfg : network_socket_t.
Variable vs : gmap string Z.

(** What the two resolutions answer. *)
Definition resolved_bind : Z * sockaddr_in :=
  vlc_getaddrinfo_ env (psz_bind_addr cfg) (i_bind_port cfg).
Definition resolved_server : Z * sockaddr_in :=
  vlc_getaddrinfo_ env (psz_server_addr cfg) (i_server_port cfg).

(** The test that selects the join rather than the connect. *)
Definition joins : bool :=
  HAVE_IP_ADD_SOURCE_MEMBERSHIP pf
  && IN_MULTICAST (ntohl pf (sin_addr resolved_bind.2)).

(** The test that selects the multicast send options after the connect. *)
Definition sends_multicast : bool :=
  HAVE_IP_MULTICAST_IF pf
  && IN_MULTICAST (ntohl pf (inet_addr env (psz_server_addr cfg))).

Definition resolve_bind_call : call :=
  CGetaddrinfo (psz_bind_addr cfg) (i_bind_port cfg).
Definition resolve_server_call : call :=
  CGetaddrinfo (psz_server_addr cfg) (i_server_port cfg).

Definition bind_call (fd : Z) : call :=
  CBind fd (bind_target pf resolved_bind.2).
Definition connect_call (fd : Z) : call :=
  CConnect fd resolved_server.2.

(** Calls and messages up to and including [bind]. *)
Definition bound_calls (fd : Z) : list call :=
  resolve_bind_call :: CSocket :: tuning_calls pf fd ++ [bind_call fd].
Definition bound_msgs (fd : Z) : list (msg_type * string) :=
  dbg_resolving :: tuning_msgs pf env fd.

(** Calls and messages up to the choice between join and connect. *)
Definition branch_calls (fd : Z) : list call :=
  bound_calls fd ++ broadcast_calls pf fd (psz_bind_addr cfg).
Definition branch_msgs (fd : Z) : list (msg_type * string) :=
  bound_msgs fd ++ broadcast_msgs pf env fd (psz_bind_addr cfg).

Definition connect_calls (fd : Z) : list call :=
  [resolve_server_call; connect_call fd].

Definition send_calls (fd : Z) : list call :=
  if sends_multicast
  then mif_calls env fd ++ ttl_calls env fd (i_ttl cfg) else [].
Definition send_msgs (fd : Z) : list (msg_type * string) :=
  if sends_multicast then ttl_msgs env fd (i_ttl cfg) else [].

(** [*p_socket] on failure and on success. *)
Definition failed : network_socket_t := with_handle cfg (-1).
Definition ready (fd : Z) : network_socket_t :=
  with_mtu (with_handle cfg fd) (mtu_value env vs).

(** The local address resolved, the socket was created and bound. *)
Definition bound : Prop :=
  resolved_bind.1 = 0
  ∧ os_socket env ≠ -1
  ∧ 0 ≤ os_bind env (os_socket env) (bind_target pf resolved_bind.2).

(** The socket is bound and connected to a multicast peer, and the
    outgoing interface, if one is configured, was accepted: the function
    is about to set the time-to-live. *)
Definition reaches_ttl_step : Prop :=
  bound
  ∧ joins = false
  ∧ resolved_server.1 = 0
  ∧ os_connect env (os_socket env) resolved_server.2 ≠ -1
  ∧ sends_multicast = true
  ∧ mif_fails env (os_socket env) = false.

Inductive OpenUDP_path : Z → world → Prop :=
  | resolution_failed :
      resolved_bind.1 ≠ 0 →
      OpenUDP_path VLC_EGENERIC
        (World failed [resolve_bind_call]
           [dbg_resolving; (MSG_WARN, "%s: %s"%string)] vs)
  | socket_failed :
      resolved_bind.1 = 0 →
      os_socket env = -1 →
      OpenUDP_path VLC_EGENERIC
        (World failed [resolve_bind_call; CSocket]
           [dbg_resolving; (MSG_ERR, "cannot create socket (%s)"%string)]
           vs)
  | bind_failed fd :
      resolved_bind.1 = 0 →
      os_socket env = fd → fd ≠ -1 →
      os_bind env fd (bind_target pf resolved_bind.2) < 0 →
      OpenUDP_path VLC_EGENERIC
        (World failed (bound_calls fd ++ [CClose fd])
           (bound_msgs fd ++ [bind_error pf resolved_bind.2]) vs)
  | join_failed fd :
      resolved_bind.1 = 0 →
      os_socket env = fd → fd ≠ -1 →
      0 ≤ os_bind env fd (bind_target pf resolved_bind.2) →
      joins = true →
      os_setsockopt env fd IPPROTO_IP IP_ADD_SOURCE_MEMBERSHIP
        (OptMreqSource
           (join_request env resolved_bind.2 (psz_server_addr cfg))) = -1 →
      OpenUDP_path VLC_EGENERIC
        (World failed
           (branch_calls fd
            ++ join_calls env fd resolved_bind.2 (psz_server_addr cfg)
            ++ [CClose fd])
           (branch_msgs fd ++ [dbg_join; err_join]) vs)
  | joined fd :
      resolved_bind.1 = 0 →
      os_socket env = fd → fd ≠ -1 →
      0 ≤ os_bind env fd (bind_target pf resolved_bind.2) →
      joins = true →
      os_setsockopt env fd IPPROTO_IP IP_ADD_SOURCE_MEMBERSHIP
        (OptMreqSource
           (join_request env resolved_bind.2 (psz_server_addr cfg))) ≠ -1 →
      OpenUDP_path 0
        (World (ready fd)
           (branch_calls fd
            ++ join_calls env fd resolved_bind.2 (psz_server_addr cfg)
            ++ mtu_calls vs)
           (branch_msgs fd ++ [dbg_join]) (mtu_vars env vs))
  | remote_resolution_failed fd :
      resolved_bind.1 = 0 →
      os_socket env = fd → fd ≠ -1 →
      0 ≤ os_bind env fd (bind_target pf resolved_bind.2) →
      joins = false →
      resolved_server.1 ≠ 0 →
      OpenUDP_path VLC_EGENERIC
        (World failed
           (branch_calls fd ++ [resolve_server_call; CClose fd])
           (branch_msgs fd
            ++ [dbg_resolving; (MSG_WARN, "%s: %s"%string);
                (MSG_ERR, "cannot build remote address"%string)]) vs)
  | connect_failed fd :
      resolved_bind.1 = 0 →
      os_socket env = fd → fd ≠ -1 →
      0 ≤ os_bind env fd (bind_target pf resolved_bind.2) →
      joins = false →
      resolved_server.1 = 0 →
      os_connect env fd resolved_server.2 = -1 →
      OpenUDP_path VLC_EGENERIC
        (World failed
           (branch_calls fd ++ connect_calls fd ++ [CClose fd])
           (branch_msgs fd
            ++ [dbg_resolving;
                (MSG_ERR, "cannot connect socket (%s)"%string)]) vs)
  | interface_failed fd :
      resolved_bind.1 = 0 →
      os_socket env = fd → fd ≠ -1 →
      0 ≤ os_bind env fd (bind_target pf resolved_bind.2) →
      joins = false →
      resolved_server.1 = 0 →
      os_connect env fd resolved_server.2 ≠ -1 →
      sends_multicast = true →
      mif_fails env fd = true →
      OpenUDP_path VLC_EGENERIC
        (World failed
           (branch_calls fd ++ connect_calls fd
            ++ mif_calls env fd ++ [CClose fd])
           (branch_msgs fd ++ [dbg_resolving; err_mif]) vs)
  | ttl_failed fd :
      resolved_bind.1 = 0 →
      os_socket env = fd → fd ≠ -1 →
      0 ≤ os_bind env fd (bind_target pf resolved_bind.2) →
      joins = false →
      resolved_server.1 = 0 →
      os_connect env fd resolved_server.2 ≠ -1 →
      sends_multicast = true →
      mif_fails env fd = false →
      ttl_fails env fd (i_ttl cfg) = true →
      OpenUDP_path VLC_EGENERIC
        (World failed
           (branch_calls fd ++ connect_calls fd
            ++ send_calls fd ++ [CClose fd])
           (branch_msgs fd ++ dbg_resolving :: send_msgs fd ++ [err_ttl])
           vs)
  | connected fd :
      resolved_bind.1 = 0 →
      os_socket env = fd → fd ≠ -1 →
      0 ≤ os_bind env fd (bind_target pf resolved_bind.2) →
      joins = false →
      resolved_server.1 = 0 →
      os_connect env fd resolved_server.2 ≠ -1 →
      (sends_multicast = true →
       mif_fails env fd = false ∧ ttl_fails env fd (i_ttl cfg) = false) →
      OpenUDP_path 0
        (World (ready fd)
           (branch_calls fd ++ connect_calls fd
            ++ send_calls fd ++ mtu_calls vs)
           (branch_msgs fd ++ dbg_resolving :: send_msgs fd)
           (mtu_vars env vs)).

Definition follows_path (r : Z * world) : Prop := OpenUDP_path r.1 r.2.

End Paths.

(** ** Reading the log *)

Definition is_resolve (c : call) : bool :=
  match c with CGetaddrinfo _ _ => true | _ => false end.

Definition is_descriptor_call (c : call) : bool :=
  match c with CSocket | CClose _ => true | _ => false end.

Definition is_connect (c : call) : bool :=
  match c with CConnect _ _ => true | _ => false end.

Definition is_join (c : call) : bool :=
  match c with
  | CSetsockopt _ IPPROTO_IP IP_ADD_SOURCE_MEMBERSHIP _ => true
  | _ => false
  end.

Definition is_ttl_option (c : call) : bool :=
  match c with
  | CSetsockopt _ IPPROTO_IP IP_MULTICAST_TTL _ => true
  | _ => false
  end.

Definition is_broadcast (c : call) : bool :=
  match c with
  | CSetsockopt _ SOL_SOCKET SO_BROADCAST _ => true
  | _ => false
  end.

Definition is_var_call (c : call) : bool :=
  match c with CVarGet _ | CVarCreate _ => true | _ => false end.

(** The value a logged system call returned. *)
Definition returned (env : environment) (c : call) : Z :=
  match c with
  | CSocket => os_socket env
  | CSetsockopt fd level name val => os_setsockopt env fd level name val
  | CBind fd addr => os_bind env fd addr
  | CConnect fd addr => os_connect env fd addr
  | _ => 0
  end.

(** ** Test doubles

    A resolver and an [inet_addr] that understand dotted quads, and
    environments built from them, for the scenarios below. *)

Definition digit_of (c : ascii) : option Z :=
  let n := Z.of_nat (nat_of_ascii c) in
  if (48 <=? n) && (n <=? 57) then Some (n - 48) else None.

Fixpoint parse_quad (s : string) (cur : option Z) (acc : list Z)
  : option (list Z) :=
  match s with
  | EmptyString =>
      match cur with Some n => Some (acc ++ [n]) | None => None end
  | String c s' =>
      if Ascii.eqb c "."%char then
        match cur with
        | Some n => parse_quad s' None (acc ++ [n])
        | None => None
        end
      else
        match digit_of c with
        | Some d => parse_quad s' (Some (10 * default 0 cur + d)) acc
        | None => None
        end
  end.

(** [a.b.c.d] as an [s_addr], in network byte order; [INADDR_NONE] for
    anything else. *)
Definition dotted_quad (pf : platform) (s : string) : Z :=
  match parse_quad s None [] with
  | Some [a; b; c; d] =>
      if (a <=? 255) && (b <=? 255) && (c <=? 255) && (d <=? 255)
      then htonl pf (a * 2 ^ 24 + b * 2 ^ 16 + c * 2 ^ 8 + d)
      else INADDR_NONE
  | _ => INADDR_NONE
  end.

(** The empty node is the wildcard address (AI_PASSIVE). *)
Definition quad_resolver (pf : platform) (node : string) (port : Z)
  : Z * sockaddr_in :=
  if empty_string node then (0, Sockaddr INADDR_ANY port)
  else if dotted_quad pf node =? INADDR_NONE then (-2, Sockaddr 0 0)
  else (0, Sockaddr (dotted_quad pf node) port).

Definition accepts_all (fd : Z) (level : sockopt_level)
    (name : sockopt_name) (val : optval) : Z := 0.

(** Rejects the byte-sized time-to-live only. *)
Definition rejects_uchar_ttl (fd : Z) (level : sockopt_level)
    (name : sockopt_name) (val : optval) : Z :=
  match name, val with
  | IP_MULTICAST_TTL, OptUChar _ => -1
  | _, _ => 0
  end.

(** Rejects every option of the socket level. *)
Definition rejects_socket_level (fd : Z) (level : sockopt_level)
    (name : sockopt_name) (val : optval) : Z :=
  match level with SOL_SOCKET => -1 | IPPROTO_IP => 0 end.

(** Socket 3 is created; [bind] and [connect] succeed; the inherited MTU
    is 1500. *)
Definition test_env (pf : platform)
    (answer : Z → sockopt_level → sockopt_name → optval → Z)
    (miface : option string) (default_ttl : Z) : environment :=
  Environment (quad_resolver pf) 3 answer (λ _ _, 0) (λ _ _, 0)
    (dotted_quad pf)
    (λ name, if String.eqb name "miface-addr" then miface else None)
    (λ name, if String.eqb name "ttl" then default_ttl else 0)
    (λ _, 1500) 0.

Definition posix : platform :=
  Platform false true true false true true false.
Definition without_source_membership : platform :=
  Platform false true true false false true false.
Definition beos : platform :=
  Platform false false true true true true false.

(** bind="" port=5004 server="239.255.12.42" server-port=5004 *)
Definition send_to_group (ttl : Z) : network_socket_t :=
  NetworkSocket "" 5004 "239.255.12.42" 5004 ttl 0 0.
(** bind="239.255.12.42" port=5004, with or without a source *)
Definition receive_group (source : string) : network_socket_t :=
  NetworkSocket "239.255.12.42" 5004 source 5004 0 0 0.
(** bind="192.168.1.20" port=1234 server="192.168.1.10" server-port=5000 *)
Definition unicast_peer : network_socket_t :=
  NetworkSocket "192.168.1.20" 1234 "192.168.1.10" 5000 0 0 0.

(** ** The properties under study *)

(** What the two runs return and leave behind, messages apart. *)
Definition same_outcome (r r' : Z * world) : Prop :=
  r.1 = r'.1
  ∧ calls r.2 = calls r'.2
  ∧ p_private r.2 = p_private r'.2
  ∧ vars r.2 = vars r'.2.

(** The environment that answers [f] to the options of the socket level,
    and is [env] otherwise. *)
Definition with_socket_level_answers
    (f : Z → sockopt_name → optval → Z) (env : environment)
  : environment :=
  Environment (vlc_getaddrinfo_ env) (os_socket env)
    (λ fd level name val,
       match level with
       | SOL_SOCKET => f fd name val
       | IPPROTO_IP => os_setsockopt env fd level name val
       end)
    (os_bind env) (os_connect env) (inet_addr env) (config_psz env)
    (config_int env) (var_inherit env) (stack_val env).

(** The environment in which SO_BROADCAST returns [z]. *)
Definition with_broadcast_answer (z : Z) (env : environment) : environment :=
  with_socket_level_answers
    (λ fd name val,
       match name with
       | SO_BROADCAST => z
       | _ => os_setsockopt env fd SOL_SOCKET name val
       end) env.

(** The environment that answers [f] to SO_REUSEADDR, SO_REUSEPORT,
    SO_RCVBUF and SO_SNDBUF. *)
Definition with_tuning_answers (f : Z → sockopt_name → optval → Z)
    (env : environment) : environment :=
  with_socket_level_answers
    (λ fd name val,
       match name with
       | SO_BROADCAST => os_setsockopt env fd SOL_SOCKET name val
       | _ => f fd name val
       end) env.

Section Properties.
Variable pf : platform.
Variable env : environment.
Variable cfg : network_socket_t.
Variable vs : gmap string Z.

Definition retval : Z := (run pf env cfg vs).1.
Definition final : world := (run pf env cfg vs).2.
Definition logged : list call := calls (run pf env cfg vs).2.

(** A bound socket whose local address is multicast is joined to the
    group and never connected. *)
Definition multicast_bind_joins : Prop :=
  bound pf env cfg →
  multicast_range (ntohl pf (sin_addr (resolved_bind env cfg).2)) →
  List.filter is_join logged
  = [join_option env (os_socket env) (resolved_bind env cfg).2
       (psz_server_addr cfg)]
  ∧ List.filter is_connect logged = []
  ∧ List.filter is_resolve logged = [resolve_bind_call cfg].

(** A bound socket whose local address is not multicast takes the connect
    path: the remote address is resolved and, if that succeeds, connected
    to; no group is joined. *)
Definition unicast_bind_connects : Prop :=
  bound pf env cfg →
  ¬ multicast_range (ntohl pf (sin_addr (resolved_bind env cfg).2)) →
  List.filter is_join logged = []
  ∧ List.filter is_resolve logged
    = [resolve_bind_call cfg; resolve_server_call cfg]
  ∧ ((resolved_server env cfg).1 = 0 →
     List.filter is_connect logged = [connect_call env cfg (os_socket env)]).

(** With an empty bind address SO_BROADCAST is set, once, right after the
    bind; when it fails a warning is logged, and what it returns changes
    nothing else. *)
Definition empty_bind_enables_broadcast : Prop :=
  bound pf env cfg →
  psz_bind_addr cfg = ""%string →
  (∃ rest,
     logged = bound_calls pf env cfg (os_socket env)
              ++ broadcast_option (os_socket env) :: rest
     ∧ List.filter is_broadcast rest = [])
  ∧ (returned env (broadcast_option (os_socket env)) = -1 →
     warn_broadcast ∈ msgs final)
  ∧ (∀ z, same_outcome (run pf (with_broadcast_answer z env) cfg vs)
                       (run pf env cfg vs)).

Definition nonempty_bind_no_broadcast : Prop :=
  psz_bind_addr cfg ≠ ""%string → List.filter is_broadcast logged = [].

(** The configured time-to-live if positive, else the default. *)
Definition configured_ttl : Z :=
  if 0 <? i_ttl cfg then i_ttl cfg else config_int env "ttl".

(** Whichever form of the option is applied, it carries [configured_ttl]. *)
Definition ttl_applied_is_configured : Prop :=
  ∀ fd val,
    CSetsockopt fd IPPROTO_IP IP_MULTICAST_TTL val ∈ logged →
    val = OptUChar configured_ttl ∨ val = OptInt configured_ttl.

End Properties.

(** ** Further readings of the log, and of the messages *)

Definition is_bind (c : call) : bool :=
  match c with CBind _ _ => true | _ => false end.

Definition is_interface_option (c : call) : bool :=
  match c with
  | CSetsockopt _ IPPROTO_IP IP_MULTICAST_IF _ => true
  | _ => false
  end.

Definition is_config_int (c : call) : bool :=
  match c with CConfigGetInt _ => true | _ => false end.

(** The descriptor a call is made on. *)
Definition descriptor_of (c : call) : option Z :=
  match c with
  | CSetsockopt fd _ _ _ | CBind fd _ | CConnect fd _ | CClose fd => Some fd
  | _ => None
  end.

Definition is_error (m : msg_type * string) : bool :=
  match m.1 with MSG_ERR => true | _ => false end.

Definition warn_resolution : msg_type * string :=
  (MSG_WARN, "%s: %s"%string).
Definition dbg_rcvbuf : msg_type * string :=
  (MSG_DBG, "cannot configure socket (SO_RCVBUF: %s)"%string).
Definition dbg_sndbuf : msg_type * string :=
  (MSG_DBG, "cannot configure socket (SO_SNDBUF: %s)"%string).

(** The environment that answers [f] to SO_REUSEADDR and SO_REUSEPORT. *)
Definition with_reuse_answers (f : Z → sockopt_name → optval → Z)
    (env : environment) : environment :=
  with_socket_level_answers
    (λ fd name val,
       match name with
       | SO_REUSEADDR | SO_REUSEPORT => f fd name val
       | _ => os_setsockopt env fd SOL_SOCKET name val
       end) env.

Section Steps.
Variable pf : platform.
Variable env : environment.
Variable cfg : network_socket_t.

(** The socket is bound and connected to a peer that [inet_addr] reads as
    multicast: the function is about to set the multicast send options. *)
Definition reaches_send_options : Prop :=
  bound pf env cfg
  ∧ joins pf env cfg = false
  ∧ (resolved_server env cfg).1 = 0
  ∧ os_connect env (os_socket env) (resolved_server env cfg).2 ≠ -1
  ∧ sends_multicast pf env cfg = true.

(** None of the fatal checks of the function fires. *)
Definition all_steps_succeed : Prop :=
  bound pf env cfg
  ∧ if joins pf env cfg
    then returned env
           (join_option env (os_socket env) (resolved_bind env cfg).2
              (psz_server_addr cfg)) ≠ -1
    else (resolved_server env cfg).1 = 0
         ∧ os_connect env (os_socket env) (resolved_server env cfg).2 ≠ -1
         ∧ (sends_multicast pf env cfg = true →
            mif_fails env (os_socket env) = false
            ∧ ttl_fails env (os_socket env) (i_ttl cfg) = false).

End Steps.

(** A call that takes a descriptor takes [fd]. *)
Definition on_descriptor (fd : Z) (c : call) : Prop :=
  ∀ fd', descriptor_of c = Some fd' → fd' = fd.

(** * Verification *)

(** ** Multicast addresses *)

Lemma land_high_nibble (a : Z) :
  0 ≤ a < 2 ^ 32 → Z.land a 0xf0000000 = (a / 2 ^ 28) * 2 ^ 28.
Proof.
  intros Ha.
  rewrite <- Z.shiftr_div_pow2, <- Z.shiftl_mul_pow2 by lia.
  apply Z.bits_inj'. intros n Hn.
  rewrite Z.land_spec.
  change 0xf0000000 with (Z.shiftl 15 28).
  destruct (Z.lt_ge_cases n 28) as [Hlo | Hhi].
  - rewrite !Z.shiftl_spec_low by lia. apply andb_false_r.
  - rewrite !Z.shiftl_spec_high, Z.shiftr_spec by lia.
    replace (n - 28 + 28) with n by lia.
    destruct (Z.lt_ge_cases n 32) as [Hlt | Hge].
    + assert (Hc : n - 28 = 0 ∨ n - 28 = 1 ∨ n - 28 = 2 ∨ n - 28 = 3) by lia.
      destruct Hc as [-> | [-> | [-> | ->]]]; apply andb_true_r.
    + assert (Hz : Z.testbit a n = false).
      { destruct (Z.eq_dec a 0) as [-> | Hnz]; [apply Z.bits_0 |].
        apply Z.bits_above_log2; [lia |].
        apply Z.lt_le_trans with 32; [| lia].
        apply Z.log2_lt_pow2; lia. }
      rewrite Hz. reflexivity.
Qed.

Lemma IN_MULTICAST_range (a : Z) :
  0 ≤ a < 2 ^ 32 → IN_MULTICAST a = true ↔ multicast_range a.
Proof.
  intros Ha. unfold IN_MULTICAST, IN_CLASSD, multicast_range.
  rewrite land_high_nibble by exact Ha.
  rewrite Z.eqb_eq.
  pose proof (Z.div_mod a (2 ^ 28) ltac:(lia)) as Hdm.
  pose proof (Z.mod_pos_bound a (2 ^ 28) ltac:(lia)) as Hm.
  change (2 ^ 28) with 268435456 in *. lia.
Qed.

(** A non-negative number none of whose bits 32 and above is set fits in
    32 bits. *)
Lemma fits_32_bits (z : Z) :
  0 ≤ z → (∀ n, 32 ≤ n → Z.testbit z n = false) → 0 ≤ z < 2 ^ 32.
Proof.
  intros Hz Hbits. split; [exact Hz |].
  assert (Heq : z = Z.land z (Z.ones 32)).
  { apply Z.bits_inj'. intros n Hn. rewrite Z.land_spec.
    destruct (Z.lt_ge_cases n 32) as [Hlt | Hge].
    - rewrite Z.ones_spec_low by lia. symmetry. apply andb_true_r.
    - rewrite Hbits by lia. reflexivity. }
  rewrite Z.land_ones in Heq by lia.
  rewrite Heq. apply Z.mod_pos_bound. lia.
Qed.

Lemma testbit_land_mask (x m n : Z) :
  0 ≤ m → Z.log2 m < n → Z.testbit (Z.land x m) n = false.
Proof.
  intros Hm Hlog. rewrite Z.land_spec, (Z.bits_above_log2 m n) by lia.
  apply andb_false_r.
Qed.

Lemma bswap32_range (x : Z) : 0 ≤ bswap32 x < 2 ^ 32.
Proof.
  apply fits_32_bits.
  - unfold bswap32. rewrite !Z.lor_nonneg, !Z.shiftl_nonneg, !Z.land_nonneg.
    lia.
  - intros n Hn. unfold bswap32.
    rewrite !Z.lor_spec, !Z.shiftl_spec by lia.
    rewrite (testbit_land_mask x 0xFF (n - 24)),
            (testbit_land_mask x 0xFF00 (n - 8)),
            (testbit_land_mask (Z.shiftr x 8) 0xFF00 n),
            (testbit_land_mask (Z.shiftr x 24) 0xFF n);
      first reflexivity; first [lia | (cbn; lia)].
Qed.

Lemma ntohl_range (pf : platform) (x : Z) : 0 ≤ ntohl pf x < 2 ^ 32.
Proof.
  unfold ntohl. destruct (WORDS_BIGENDIAN pf).
  - change 0xFFFFFFFF with (Z.ones 32). rewrite Z.land_ones by lia.
    apply Z.mod_pos_bound. lia.
  - apply bswap32_range.
Qed.

(** The test the function performs on an address in network byte order is
    membership of its host-order value in the class D range. *)
Lemma IN_MULTICAST_ntohl (pf : platform) (x : Z) :
  IN_MULTICAST (ntohl pf x) = true ↔ multicast_range (ntohl pf x).
Proof. apply IN_MULTICAST_range, ntohl_range. Qed.

(** ** Symbolic execution of the phases *)

Lemma add_log_add_log cs1 ms1 cs2 ms2 w :
  add_log cs2 ms2 (add_log cs1 ms1 w) = add_log (cs1 ++ cs2) (ms1 ++ ms2) w.
Proof. unfold add_log; cbn. by rewrite !app_assoc. Qed.

Lemma log_call_run c w : log_call c w = (Next (), add_log [c] [] w).
Proof. unfold log_call, add_log. by rewrite app_nil_r. Qed.

Lemma msg_run t s w : msg t s w = (Next (), add_log [] [(t, s)] w).
Proof. unfold msg, add_log. by rewrite app_nil_r. Qed.

Ltac exec :=
  repeat (first
    [ progress unfold mbind, mret, M_bind, M_ret, when, return_,
                      msg_Dbg, msg_Warn, msg_Err
    | progress cbv beta iota
    | rewrite log_call_run
    | rewrite msg_run
    | rewrite add_log_add_log ]);
  cbn [app].

Ltac exec_split :=
  match goal with
  | |- context [if ?b then _ else _] => destruct b eqn:?
  end.

Ltac exec_all := exec; repeat (exec_split; exec).

Lemma add_log_nil w : add_log [] [] w = w.
Proof. destruct w. unfold add_log; cbn. by rewrite !app_nil_r. Qed.

Section Phases.
Variable pf : platform.
Variable env : environment.

Lemma tune_socket_run fd w :
  tune_socket pf env fd w
  = (Next (), add_log (tuning_calls pf fd) (tuning_msgs pf env fd) w).
Proof.
  unfold tune_socket, tuning_calls, tuning_msgs, setsockopt.
  exec_all; reflexivity.
Qed.

Lemma BuildAddr_run a p w :
  BuildAddr env a p w
  = if negb ((vlc_getaddrinfo_ env a p).1 =? 0)
    then (Next None,
          add_log [CGetaddrinfo a p]
                  [dbg_resolving; (MSG_WARN, "%s: %s"%string)] w)
    else (Next (Some (vlc_getaddrinfo_ env a p).2),
          add_log [CGetaddrinfo a p] [dbg_resolving] w).
Proof.
  unfold BuildAddr, vlc_getaddrinfo, dbg_resolving. exec.
  destruct (vlc_getaddrinfo_ env a p) as [i_val res]; cbn [fst snd].
  exec_all; reflexivity.
Qed.

Lemma bind_socket_run fd sock w :
  bind_socket pf env fd sock w
  = if os_bind env fd (bind_target pf sock) <? 0
    then (Returned VLC_EGENERIC,
          add_log [CBind fd (bind_target pf sock); CClose fd]
                  [bind_error pf sock] w)
    else (Next (), add_log [CBind fd (bind_target pf sock)] [] w).
Proof.
  unfold bind_socket, bind_target, bind_error, bind, goto_error, close.
  destruct (WIN32 pf && IN_MULTICAST (ntohl pf (sin_addr sock)));
    exec_all; reflexivity.
Qed.

Lemma allow_broadcast_run fd bind_addr w :
  allow_broadcast pf env fd bind_addr w
  = (Next (),
     add_log (broadcast_calls pf fd bind_addr) (broadcast_msgs pf env fd bind_addr) w).
Proof.
  unfold allow_broadcast, broadcast_calls, broadcast_msgs, broadcast_option,
    warn_broadcast, setsockopt.
  destruct (SYS_BEOS pf), (empty_string bind_addr); cbn [negb andb];
    exec_all; rewrite ?add_log_nil; reflexivity.
Qed.

Lemma join_group_run fd sock server_addr w :
  join_group env fd sock server_addr w
  = if os_setsockopt env fd IPPROTO_IP IP_ADD_SOURCE_MEMBERSHIP
         (OptMreqSource (join_request env sock server_addr)) =? -1
    then (Returned VLC_EGENERIC,
          add_log (join_calls env fd sock server_addr ++ [CClose fd])
                  [dbg_join; err_join] w)
    else (Next (), add_log (join_calls env fd sock server_addr) [dbg_join] w).
Proof.
  unfold join_group, join_calls, join_option, join_request, config_GetPsz,
    setsockopt,
    goto_error, close, dbg_join, err_join.
  exec_all; reflexivity.
Qed.

Lemma set_ttl_run fd i_ttl w :
  set_ttl env fd i_ttl w
  = if ttl_fails env fd i_ttl
    then (Returned VLC_EGENERIC,
          add_log (ttl_calls env fd i_ttl ++ [CClose fd])
                  (ttl_msgs env fd i_ttl ++ [err_ttl]) w)
    else (Next (), add_log (ttl_calls env fd i_ttl) (ttl_msgs env fd i_ttl) w).
Proof.
  unfold set_ttl, ttl_fails, ttl_calls, ttl_options, ttl_msgs, effective_ttl,
    uchar_rejected, int_rejected, ttl_uchar, ttl_int, config_GetInt,
    setsockopt, goto_error, close, dbg_ttl, err_ttl.
  destruct (i_ttl <=? 0); exec;
    repeat (exec_split; cbn [andb app]; exec);
    rewrite ?add_log_nil; reflexivity.
Qed.

Lemma multicast_send_options_run fd i_ttl w :
  multicast_send_options env fd i_ttl w
  = if mif_fails env fd
    then (Returned VLC_EGENERIC,
          add_log (mif_calls env fd ++ [CClose fd]) [err_mif] w)
    else if ttl_fails env fd i_ttl
    then (Returned VLC_EGENERIC,
          add_log (mif_calls env fd ++ ttl_calls env fd i_ttl ++ [CClose fd])
                  (ttl_msgs env fd i_ttl ++ [err_ttl]) w)
    else (Next (),
          add_log (mif_calls env fd ++ ttl_calls env fd i_ttl)
                  (ttl_msgs env fd i_ttl) w).
Proof.
  unfold multicast_send_options, mif_fails, mif_calls, config_GetPsz,
    setsockopt, goto_error, close, err_mif.
  exec. destruct (config_psz env "miface-addr") as [s |]; exec.
  - exec_split; exec; [reflexivity |].
    rewrite set_ttl_run. destruct (ttl_fails env fd i_ttl); exec; reflexivity.
  - rewrite set_ttl_run. destruct (ttl_fails env fd i_ttl); exec; reflexivity.
Qed.

Lemma attach_mtu_run w :
  attach_mtu env w
  = (Next (),
     World (with_mtu (p_private w) (mtu_value env (vars w)))
           (calls w ++ mtu_calls (vars w)) (msgs w) (mtu_vars env (vars w))).
Proof.
  unfold attach_mtu, var_Get, var_Create, set_i_mtu, mtu_value, mtu_calls,
    mtu_vars.
  destruct w as [s cs ms vs]. exec. unfold add_log; cbn.
  destruct (vs !! "mtu"%string) as [v |] eqn:Hv; cbn.
  - rewrite !app_nil_r. reflexivity.
  - rewrite Hv, lookup_insert_eq. cbn.
    rewrite !app_nil_r, <- !app_assoc. reflexivity.
Qed.

End Phases.

(** ** Every run follows a path *)

Section Runs.
Variable pf : platform.
Variable env : environment.
Variable cfg : network_socket_t.
Variable vs : gmap string Z.

Lemma OpenUDP_path_eq rc w w' :
  OpenUDP_path pf env cfg vs rc w → w = w' → OpenUDP_path pf env cfg vs rc w'.
Proof. by intros H <-. Qed.

(** Closes a leaf of the execution with the constructor of its path; the
    two states agree up to the bracketing of the logs. *)
Ltac finish_path c :=
  unfold follows_path, add_log;
  cbn [fst snd p_private calls msgs vars app];
  eapply OpenUDP_path_eq;
  [ eapply c; eauto; try congruence
  | unfold failed, ready, branch_calls, branch_msgs, bound_calls,
      bound_msgs, connect_calls, bind_call, connect_call, send_calls,
      send_msgs;
    repeat match goal with
           | H : sends_multicast _ _ _ = _ |- _ => rewrite H
           end;
    f_equal;
    repeat first [rewrite <- app_assoc | rewrite app_nil_r
                 | progress cbn [app]];
    reflexivity ].

Lemma OpenUDP_runs : follows_path pf env cfg vs (run pf env cfg vs).
Proof.
  unfold run, OpenUDP, call_function, OpenUDP_body, init_world,
    get_p_socket, set_i_handle, socket.
  exec. cbn [p_private]. rewrite BuildAddr_run.
  fold (resolved_bind env cfg) (resolve_bind_call cfg).
  destruct (Z.eqb_spec (resolved_bind env cfg).1 0) as [Hres | Hres];
    cbn [negb]; exec.
  2: { unfold follows_path, add_log; cbn. by apply resolution_failed. }
  destruct (Z.eqb_spec (os_socket env) (-1)) as [Hfd | Hfd]; exec.
  { unfold follows_path, add_log; cbn. by apply socket_failed. }
  rewrite tune_socket_run, bind_socket_run. exec.
  destruct (Z.ltb_spec (os_bind env (os_socket env)
              (bind_target pf (resolved_bind env cfg).2)) 0) as [Hb | Hb];
    exec.
  { finish_path bind_failed. }
  rewrite allow_broadcast_run. exec. fold (joins pf env cfg).
  destruct (joins pf env cfg) eqn:Hj.
  - rewrite join_group_run.
    destruct (Z.eqb_spec
      (os_setsockopt env (os_socket env) IPPROTO_IP IP_ADD_SOURCE_MEMBERSHIP
        (OptMreqSource
          (join_request env (resolved_bind env cfg).2
             (psz_server_addr cfg)))) (-1))
      as [Hrc | Hrc]; exec.
    + finish_path join_failed.
    + cbn [p_private calls msgs vars add_log]. rewrite attach_mtu_run.
      finish_path joined.
  - unfold connect_socket, connect. exec. rewrite BuildAddr_run.
    fold (resolved_server env cfg) (resolve_server_call cfg).
    destruct (Z.eqb_spec (resolved_server env cfg).1 0) as [Hsrv | Hsrv];
      cbn [negb]; unfold goto_error, close; exec.
    2: { finish_path remote_resolution_failed. }
    destruct (Z.eqb_spec
                (os_connect env (os_socket env) (resolved_server env cfg).2)
                (-1)) as [Hc | Hc]; exec.
    { finish_path connect_failed. }
    fold (sends_multicast pf env cfg).
    destruct (sends_multicast pf env cfg) eqn:Hsm; exec.
    + rewrite multicast_send_options_run.
      destruct (mif_fails env (os_socket env)) eqn:Hmif; exec.
      { finish_path interface_failed. }
      destruct (ttl_fails env (os_socket env) (i_ttl cfg)) eqn:Httl; exec.
      { finish_path ttl_failed. }
      cbn [p_private calls msgs vars add_log]. rewrite attach_mtu_run.
      finish_path connected.
    + cbn [p_private calls msgs vars add_log]. rewrite attach_mtu_run.
      finish_path connected.
Qed.

End Runs.

(** ** Reading the log of a path *)

Lemma filter_tuning_calls (f : call → bool) pf fd :
  (∀ name val, name ≠ SO_BROADCAST →
     f (CSetsockopt fd SOL_SOCKET name val) = false) →
  List.filter f (tuning_calls pf fd) = [].
Proof.
  intros Hf. unfold tuning_calls.
  destruct (HAVE_SO_REUSEPORT pf), (HAVE_SO_RCVBUF pf); cbn;
    rewrite ?Hf by discriminate; reflexivity.
Qed.

Lemma filter_broadcast_calls (f : call → bool) pf fd bind_addr :
  f (broadcast_option fd) = false →
  List.filter f (broadcast_calls pf fd bind_addr) = [].
Proof.
  intros Hf. unfold broadcast_calls.
  destruct (negb (SYS_BEOS pf) && empty_string bind_addr); cbn;
    rewrite ?Hf; reflexivity.
Qed.

Lemma filter_mif_calls (f : call → bool) env fd :
  f (CConfigGetPsz "miface-addr") = false →
  (∀ val, f (CSetsockopt fd IPPROTO_IP IP_MULTICAST_IF val) = false) →
  List.filter f (mif_calls env fd) = [].
Proof.
  intros Hc Hf. unfold mif_calls.
  destruct (config_psz env "miface-addr"); cbn; rewrite Hc, ?Hf; reflexivity.
Qed.

Lemma filter_mtu_calls (f : call → bool) vs :
  f (CVarGet "mtu") = false →
  f (CVarCreate "mtu") = false →
  List.filter f (mtu_calls vs) = [].
Proof.
  intros Hg Hc. unfold mtu_calls.
  destruct (vs !! "mtu"%string); cbn; rewrite ?Hg, ?Hc; reflexivity.
Qed.

Lemma filter_ttl_options (f : call → bool) env fd t :
  (∀ val, f (CSetsockopt fd IPPROTO_IP IP_MULTICAST_TTL val) = false) →
  List.filter f (ttl_options env fd t) = [].
Proof.
  intros Hf. unfold ttl_options, ttl_uchar, ttl_int.
  destruct (0 <? t), (uchar_rejected env fd t); cbn; rewrite ?Hf; reflexivity.
Qed.

Lemma filter_ttl_calls (f : call → bool) env fd i_ttl :
  f (CConfigGetInt "ttl") = false →
  List.filter f (ttl_calls env fd i_ttl)
  = List.filter f (ttl_options env fd (effective_ttl env i_ttl)).
Proof.
  intros Hc. unfold ttl_calls. rewrite List.filter_app.
  destruct (i_ttl <=? 0); cbn; rewrite ?Hc; reflexivity.
Qed.

Lemma ttl_options_are_ttl env fd t :
  List.filter is_ttl_option (ttl_options env fd t) = ttl_options env fd t.
Proof.
  unfold ttl_options.
  destruct (0 <? t), (uchar_rejected env fd t); reflexivity.
Qed.

Lemma filter_send_calls (f : call → bool) pf env cfg fd :
  f (CConfigGetPsz "miface-addr") = false →
  f (CConfigGetInt "ttl") = false →
  (∀ val, f (CSetsockopt fd IPPROTO_IP IP_MULTICAST_IF val) = false) →
  (∀ val, f (CSetsockopt fd IPPROTO_IP IP_MULTICAST_TTL val) = false) →
  List.filter f (send_calls pf env cfg fd) = [].
Proof.
  intros Hp Hi Hmif Httl. unfold send_calls.
  destruct (sends_multicast pf env cfg); [| reflexivity].
  rewrite List.filter_app, filter_mif_calls, filter_ttl_calls,
    filter_ttl_options; done.
Qed.

(** Side conditions of the lemmas above, for the classifiers of this
    file. *)
Ltac classifier_side :=
  first [ reflexivity | intros; reflexivity | intros [] ? ?; done ].

Ltac open_trace :=
  unfold logged, retval, final in *;
  unfold branch_calls, bound_calls, connect_calls, join_calls,
    join_option, bind_call, connect_call, resolve_bind_call,
    resolve_server_call in *.

Ltac filter_trace :=
  repeat first
    [ rewrite List.filter_app
    | rewrite filter_tuning_calls by classifier_side
    | rewrite filter_broadcast_calls by classifier_side
    | rewrite filter_mif_calls by classifier_side
    | rewrite filter_mtu_calls by classifier_side
    | rewrite filter_send_calls by classifier_side
    | rewrite filter_ttl_calls by classifier_side
    | rewrite filter_ttl_options by classifier_side
    | rewrite ttl_options_are_ttl
    | rewrite app_nil_r
    | progress cbn [List.filter app is_resolve is_descriptor_call is_connect
                    is_join is_ttl_option is_broadcast is_var_call] ].

Lemma elem_of_filter_true (f : call → bool) c l :
  c ∈ l → f c = true → c ∈ List.filter f l.
Proof.
  rewrite !list_elem_of_In. intros Hin Hf.
  apply List.filter_In. done.
Qed.

Lemma empty_string_spec (s : string) : empty_string s = true ↔ s = ""%string.
Proof. destruct s; cbn; split; intros; congruence. Qed.

(** Takes the path of the run apart. *)
Ltac run_cases pf env cfg vs :=
  let Hrun := fresh "Hrun" in
  pose proof (OpenUDP_runs pf env cfg vs) as Hrun;
  unfold follows_path in Hrun;
  unfold logged, retval, final in *;
  destruct Hrun; cbn [fst snd calls msgs vars p_private] in *; subst.

(** A bound socket is either joined to the group of its local address or
    connected to the remote address, as [joins] says. *)
Lemma branch_of_run pf env cfg vs :
  bound pf env cfg →
  (joins pf env cfg = true
   ∧ List.filter is_join (logged pf env cfg vs)
     = [join_option env (os_socket env) (resolved_bind env cfg).2
          (psz_server_addr cfg)]
   ∧ List.filter is_connect (logged pf env cfg vs) = []
   ∧ List.filter is_resolve (logged pf env cfg vs) = [resolve_bind_call cfg])
  ∨ (joins pf env cfg = false
     ∧ List.filter is_join (logged pf env cfg vs) = []
     ∧ List.filter is_resolve (logged pf env cfg vs)
       = [resolve_bind_call cfg; resolve_server_call cfg]
     ∧ ((resolved_server env cfg).1 = 0 →
        List.filter is_connect (logged pf env cfg vs)
        = [connect_call env cfg (os_socket env)])).
Proof.
  intros (Hres & Hfd & Hbind).
  run_cases pf env cfg vs; try congruence; try lia.
  1-2: left; split; [done |]; open_trace;
       repeat split; filter_trace; reflexivity.
  all: right; split; [done |]; open_trace;
       repeat split; try intros ?;
       filter_trace;
       try reflexivity; try congruence.
Qed.

(** The group joins of a run: none, or the one of [join_option]. *)
Lemma joins_of_run pf env cfg vs :
  List.filter is_join (logged pf env cfg vs) = []
  ∨ List.filter is_join (logged pf env cfg vs)
    = [join_option env (os_socket env) (resolved_bind env cfg).2
         (psz_server_addr cfg)].
Proof.
  run_cases pf env cfg vs; open_trace; filter_trace; auto.
Qed.

(** The time-to-live options of a run: none unless the run reaches that
    step, where they are [ttl_options] and decide the return value. *)
Lemma ttl_options_of_run pf env cfg vs :
  (List.filter is_ttl_option (logged pf env cfg vs) = []
   ∧ ¬ reaches_ttl_step pf env cfg)
  ∨ (reaches_ttl_step pf env cfg
     ∧ List.filter is_ttl_option (logged pf env cfg vs)
       = ttl_options env (os_socket env) (effective_ttl env (i_ttl cfg))
     ∧ retval pf env cfg vs
       = if ttl_fails env (os_socket env) (i_ttl cfg)
         then VLC_EGENERIC else 0).
Proof.
  run_cases pf env cfg vs; open_trace; unfold send_calls;
    unfold reaches_ttl_step, bound.
  1-8: left; split; [filter_trace; reflexivity |]; intros (Hb & Hrest).
  1-8: destruct Hb as (? & ? & ?); destruct Hrest as (? & ? & ? & ? & ?).
  1-8: try congruence; try lia.
  - right.
    repeat match goal with
           | H : sends_multicast _ _ _ = true |- _ => rewrite H
           | H : ttl_fails _ _ _ = true |- _ => rewrite H
           end.
    filter_trace. tauto.
  - destruct (sends_multicast pf env cfg) eqn:Hsm.
    + right.
      match goal with
      | H : true = true → _ |- _ =>
          destruct H as [Hmif Httl]; [reflexivity |]
      end.
      rewrite Httl. filter_trace. tauto.
    + left. filter_trace. split; [reflexivity |]. intros (_ & _ & _ & _ & ? & _).
      congruence.
Qed.

Lemma returned_ttl_uchar env fd t :
  (returned env (ttl_uchar fd t) <? 0) = uchar_rejected env fd t.
Proof. reflexivity. Qed.

Lemma returned_ttl_int env fd t :
  (returned env (ttl_int fd t) <? 0) = int_rejected env fd t.
Proof. reflexivity. Qed.

Lemma configured_ttl_effective env cfg :
  configured_ttl env cfg = effective_ttl env (i_ttl cfg).
Proof.
  unfold configured_ttl, effective_ttl.
  destruct (Z.ltb_spec 0 (i_ttl cfg)), (Z.leb_spec (i_ttl cfg) 0);
    first [reflexivity | lia].
Qed.

Lemma elem_of_ttl_options env fd t c :
  c ∈ ttl_options env fd t → 0 < t ∧ (c = ttl_uchar fd t ∨ c = ttl_int fd t).
Proof.
  unfold ttl_options.
  destruct (Z.ltb_spec 0 t); [| by intros ?%elem_of_nil].
  destruct (uchar_rejected env fd t);
    rewrite ?elem_of_cons, elem_of_nil; intuition.
Qed.

(** ** The answers to the socket-level options do not matter *)

(** A path is a function of the environment. *)
Lemma OpenUDP_path_functional pf env cfg vs rc w rc' w' :
  OpenUDP_path pf env cfg vs rc w →
  OpenUDP_path pf env cfg vs rc' w' →
  rc = rc' ∧ w = w'.
Proof.
  destruct 1; destruct 1; subst;
    first [ split; reflexivity
          | exfalso; first [ congruence | lia | intuition congruence ] ].
Qed.

(** The socket-level options are answered by [f] instead: the run
    follows the same path, up to the messages. *)
Lemma OpenUDP_path_transfer pf env cfg vs f rc w :
  OpenUDP_path pf (with_socket_level_answers f env) cfg vs rc w →
  ∃ ms,
    OpenUDP_path pf env cfg vs rc (World (p_private w) (calls w) ms (vars w)).
Proof.
  destruct 1; cbn [p_private calls msgs vars]; eexists.
  all: eapply OpenUDP_path_eq;
    [ first [ by apply resolution_failed
            | by apply socket_failed
            | by apply (bind_failed pf env cfg vs fd)
            | by apply (join_failed pf env cfg vs fd)
            | by apply (joined pf env cfg vs fd)
            | by apply (remote_resolution_failed pf env cfg vs fd)
            | by apply (connect_failed pf env cfg vs fd)
            | by apply (interface_failed pf env cfg vs fd)
            | by apply (ttl_failed pf env cfg vs fd)
            | by apply (connected pf env cfg vs fd) ]
    | f_equal ].
Qed.

Lemma socket_level_answers_irrelevant pf env cfg vs f :
  same_outcome (run pf (with_socket_level_answers f env) cfg vs)
               (run pf env cfg vs).
Proof.
  pose proof (OpenUDP_runs pf (with_socket_level_answers f env) cfg vs) as H'.
  pose proof (OpenUDP_runs pf env cfg vs) as H.
  unfold follows_path in *.
  apply OpenUDP_path_transfer in H' as [ms H'].
  destruct (OpenUDP_path_functional _ _ _ _ _ _ _ _ H' H) as [Hrc Hw].
  unfold same_outcome. rewrite <- Hw. cbn. done.
Qed.

(** * The properties of the specification *)

(** C1: on a build without IP_ADD_SOURCE_MEMBERSHIP, with
    bind="239.255.12.42" and server="10.0.0.5": the socket is bound and its
    local address is in the multicast range, yet no group is joined; the
    server address is resolved and connected to, and the call returns 0. *)
Lemma C1_multicast_bind_connects_without_source_membership :
  bound without_source_membership
    (test_env without_source_membership accepts_all None 16)
    (receive_group "10.0.0.5")
  ∧ multicast_range
      (ntohl without_source_membership
         (sin_addr
            (resolved_bind
               (test_env without_source_membership accepts_all None 16)
               (receive_group "10.0.0.5")).2))
  ∧ List.filter is_join
      (logged without_source_membership
         (test_env without_source_membership accepts_all None 16)
         (receive_group "10.0.0.5") ∅) = []
  ∧ List.filter is_resolve
      (logged without_source_membership
         (test_env without_source_membership accepts_all None 16)
         (receive_group "10.0.0.5") ∅)
    = [CGetaddrinfo "239.255.12.42" 5004; CGetaddrinfo "10.0.0.5" 5004]
  ∧ List.filter is_connect
      (logged without_source_membership
         (test_env without_source_membership accepts_all None 16)
         (receive_group "10.0.0.5") ∅)
    = [CConnect 3
         (Sockaddr (dotted_quad without_source_membership "10.0.0.5") 5004)]
  ∧ retval without_source_membership
      (test_env without_source_membership accepts_all None 16)
      (receive_group "10.0.0.5") ∅ = 0
  ∧ ¬ multicast_bind_joins without_source_membership
        (test_env without_source_membership accepts_all None 16)
        (receive_group "10.0.0.5") ∅.
Proof.
  assert (Hbound : bound without_source_membership
            (test_env without_source_membership accepts_all None 16)
            (receive_group "10.0.0.5")).
  { vm_compute. repeat split; discriminate. }
  assert (Hmc : multicast_range
            (ntohl without_source_membership
               (sin_addr
                  (resolved_bind
                     (test_env without_source_membership accepts_all None 16)
                     (receive_group "10.0.0.5")).2))).
  { vm_compute. split; discriminate. }
  split; [exact Hbound |]. split; [exact Hmc |].
  split; [vm_compute; reflexivity |]. split; [vm_compute; reflexivity |].
  split; [vm_compute; reflexivity |]. split; [vm_compute; reflexivity |].
  intros H. destruct (H Hbound Hmc) as (_ & Hconnect & _).
  vm_compute in Hconnect. discriminate.
Qed.

(** C2: with a multicast bind address and no source address, the join
    that is performed is the source-specific one, filtered on
    [inet_addr("")]. *)
Lemma C2_join_without_source_is_source_specific :
  List.filter is_join
    (logged posix (test_env posix accepts_all None 16) (receive_group "") ∅)
  = [CSetsockopt 3 IPPROTO_IP IP_ADD_SOURCE_MEMBERSHIP
       (OptMreqSource
          (MreqSource (dotted_quad posix "239.255.12.42") INADDR_NONE
             INADDR_ANY))].
Proof. vm_compute. reflexivity. Qed.

(** C3: a call that fails leaves [i_handle] at -1; when it fails after the
    socket was created, the descriptor calls of the run are the creation
    and one [close] of that descriptor, which is the last call made; when
    the bind address does not resolve, the call fails and the resolution
    is the only call made; and a call that succeeds hands the descriptor,
    still open, to the caller. *)
Theorem C3_failure_closes_socket pf env cfg vs :
  (retval pf env cfg vs ≠ 0 →
   retval pf env cfg vs = VLC_EGENERIC
   ∧ i_handle (p_private (final pf env cfg vs)) = -1)
  ∧ (retval pf env cfg vs ≠ 0 →
     (resolved_bind env cfg).1 = 0 →
     os_socket env ≠ -1 →
     List.filter is_descriptor_call (logged pf env cfg vs)
     = [CSocket; CClose (os_socket env)]
     ∧ last (logged pf env cfg vs) = Some (CClose (os_socket env)))
  ∧ ((resolved_bind env cfg).1 ≠ 0 →
     retval pf env cfg vs = VLC_EGENERIC
     ∧ logged pf env cfg vs = [resolve_bind_call cfg])
  ∧ (retval pf env cfg vs = 0 →
     List.filter is_descriptor_call (logged pf env cfg vs) = [CSocket]
     ∧ i_handle (p_private (final pf env cfg vs)) = os_socket env).
Proof.
  run_cases pf env cfg vs.
  all: repeat split; try intros; try done; try (exfalso; congruence).
  all: open_trace; rewrite ?last_app; filter_trace; reflexivity.
Qed.

(** C3, with a [connect] that fails and with a bind address that does not
    resolve. *)
Lemma C3_failure_closes_socket_witness :
  last (logged posix
          (Environment (quad_resolver posix) 3 accepts_all (λ _ _, 0)
             (λ _ _, -1) (dotted_quad posix) (λ _, None) (λ _, 0)
             (λ _, 1500) 0)
          unicast_peer ∅) = Some (CClose 3)
  ∧ logged posix (test_env posix accepts_all None 16)
      (NetworkSocket "no.such.host" 1234 "" 0 0 7 0) ∅
    = [CGetaddrinfo "no.such.host" 1234].
Proof.
  split.
  - apply (proj1 (proj2 (C3_failure_closes_socket posix
             (Environment (quad_resolver posix) 3 accepts_all (λ _ _, 0)
                (λ _ _, -1) (dotted_quad posix) (λ _, None) (λ _, 0)
                (λ _, 1500) 0)
             unicast_peer ∅))).
    + vm_compute. discriminate.
    + vm_compute. reflexivity.
    + vm_compute. discriminate.
  - apply (proj1 (proj2 (proj2 (C3_failure_closes_socket posix
             (test_env posix accepts_all None 16)
             (NetworkSocket "no.such.host" 1234 "" 0 0 7 0) ∅)))).
    vm_compute. discriminate.
Defined.

(** C4: the time-to-live options of a run are none, the byte-sized form
    alone when it is accepted, or the byte-sized form followed by the
    integer-sized one when it is rejected; when the byte-sized form is
    rejected and the integer-sized one accepted the call succeeds; and a
    call that applied the option fails only when both forms are rejected. *)
Theorem C4_ttl_uchar_then_int pf env cfg vs :
  let fd := os_socket env in
  let t := effective_ttl env (i_ttl cfg) in
  let ops := List.filter is_ttl_option (logged pf env cfg vs) in
  (ops = []
   ∨ (ops = [ttl_uchar fd t] ∧ 0 ≤ returned env (ttl_uchar fd t))
   ∨ (ops = [ttl_uchar fd t; ttl_int fd t]
      ∧ returned env (ttl_uchar fd t) < 0))
  ∧ (ops ≠ [] →
     returned env (ttl_uchar fd t) < 0 →
     0 ≤ returned env (ttl_int fd t) →
     retval pf env cfg vs = 0)
  ∧ (ops ≠ [] →
     retval pf env cfg vs ≠ 0 →
     returned env (ttl_uchar fd t) < 0 ∧ returned env (ttl_int fd t) < 0).
Proof.
  intros fd t ops. subst ops.
  destruct (ttl_options_of_run pf env cfg vs)
    as [[-> _] | (_ & -> & ->)].
  { split; [by left |]. split; intros; congruence. }
  fold fd t. unfold ttl_options, ttl_fails. fold t.
  rewrite <- returned_ttl_uchar, <- returned_ttl_int.
  destruct (0 <? t); cbn [andb].
  2: { split; [by left |]. split; intros; congruence. }
  destruct (Z.ltb_spec (returned env (ttl_uchar fd t)) 0) as [Hu | Hu];
    cbn [andb].
  2: { split; [right; left; done |]. split; intros; [lia | congruence]. }
  destruct (Z.ltb_spec (returned env (ttl_int fd t)) 0) as [Hi | Hi].
  - split; [right; right; done |]. split; intros; [lia | done].
  - split; [right; right; done |]. split; intros; [done | congruence].
Qed.

(** C4, on a system that rejects the byte-sized form only: the integer
    fallback is tried and the call succeeds. *)
Lemma C4_ttl_uchar_then_int_witness :
  retval posix (test_env posix rejects_uchar_ttl None 16) (send_to_group 0) ∅
  = 0.
Proof.
  apply (proj1 (proj2 (C4_ttl_uchar_then_int posix
           (test_env posix rejects_uchar_ttl None 16) (send_to_group 0) ∅))).
  - vm_compute. discriminate.
  - vm_compute. reflexivity.
  - vm_compute. discriminate.
Defined.

(** C5 (as amended): on a build other than BeOS, once the socket is bound
    with an empty bind address, SO_BROADCAST is set, once, right after the
    bind; a failure logs a warning, and whatever SO_BROADCAST returns the
    run is the same; on a BeOS build SO_BROADCAST is never set, whatever
    the bind address; and with a bind address that is not empty
    SO_BROADCAST is never set, on any build. *)
Theorem C5_broadcast_on_empty_bind pf env cfg vs :
  (SYS_BEOS pf = false → empty_bind_enables_broadcast pf env cfg vs)
  ∧ (SYS_BEOS pf = true →
     List.filter is_broadcast (logged pf env cfg vs) = [])
  ∧ nonempty_bind_no_broadcast pf env cfg vs.
Proof.
  split; [| split].
  2: { intros Hbeos.
       run_cases pf env cfg vs; open_trace; unfold broadcast_calls;
         rewrite ?Hbeos; cbn [negb andb]; filter_trace; reflexivity. }
  - intros Hbeos (Hres & Hfd & Hbind) Hempty.
    split; [| split].
    + run_cases pf env cfg vs; try congruence; try lia.
      all: unfold branch_calls, broadcast_calls.
      all: rewrite Hbeos, Hempty; cbn [negb andb empty_string].
      all: rewrite <- ?app_assoc; cbn [app]; eexists; split;
        [reflexivity |].
      all: open_trace; filter_trace; reflexivity.
    + cbn [returned broadcast_option]. intros Hrc.
      run_cases pf env cfg vs; try congruence; try lia.
      all: unfold branch_msgs, broadcast_msgs.
      all: rewrite Hbeos, Hempty, Hrc, Z.eqb_refl;
        cbn [negb andb empty_string].
      all: rewrite !elem_of_app, !elem_of_cons; auto.
    + intros z. apply socket_level_answers_irrelevant.
  - intros Hne.
    assert (He : empty_string (psz_bind_addr cfg) = false).
    { destruct (empty_string (psz_bind_addr cfg)) eqn:He; [| done].
      by apply empty_string_spec in He. }
    run_cases pf env cfg vs; open_trace; unfold broadcast_calls;
      rewrite ?He, ?andb_false_r; filter_trace; reflexivity.
Qed.

(** C5, with an empty bind address on a system that rejects SO_BROADCAST:
    the warning is logged. *)
Lemma C5_broadcast_on_empty_bind_witness :
  warn_broadcast
  ∈ msgs (final posix (test_env posix rejects_socket_level None 16)
            (send_to_group 0) ∅).
Proof.
  apply (proj1 (C5_broadcast_on_empty_bind posix
                  (test_env posix rejects_socket_level None 16)
                  (send_to_group 0) ∅)).
  - reflexivity.
  - vm_compute. repeat split; discriminate.
  - reflexivity.
  - vm_compute. reflexivity.
Defined.

(** C5 as stated fails on BeOS: with an empty bind address SO_BROADCAST
    is not set. *)
Lemma C5_no_broadcast_on_beos :
  ¬ empty_bind_enables_broadcast beos (test_env beos accepts_all None 16)
      (send_to_group 0) ∅.
Proof.
  intros H. destruct H as [(rest & Heq & _) _].
  - vm_compute. repeat split; discriminate.
  - reflexivity.
  - vm_compute in Heq. discriminate.
Qed.

(** C6 (as amended): every time-to-live option of a run carries the
    configured value if positive, else the default, which is then
    positive: the byte-sized form its low eight bits, the integer-sized
    form all of it; a run that reaches the step with a positive value
    applies the byte-sized form first; and up to 255 the value applied is
    the value itself. *)
Theorem C6_ttl_value pf env cfg vs :
  let t := configured_ttl env cfg in
  (∀ fd val,
     CSetsockopt fd IPPROTO_IP IP_MULTICAST_TTL val ∈ logged pf env cfg vs →
     0 < t ∧ (val = OptUChar (t `mod` 256) ∨ val = OptInt t))
  ∧ (reaches_ttl_step pf env cfg → 0 < t →
     ∃ rest,
       List.filter is_ttl_option (logged pf env cfg vs)
       = CSetsockopt (os_socket env) IPPROTO_IP IP_MULTICAST_TTL
           (OptUChar (t `mod` 256)) :: rest)
  ∧ (t < 256 → ttl_applied_is_configured pf env cfg vs).
Proof.
  intros t.
  assert (Hall : ∀ fd val,
    CSetsockopt fd IPPROTO_IP IP_MULTICAST_TTL val ∈ logged pf env cfg vs →
    0 < t ∧ (val = OptUChar (t `mod` 256) ∨ val = OptInt t)).
  { intros fd val Hin.
    apply (elem_of_filter_true is_ttl_option) in Hin; [| reflexivity].
    destruct (ttl_options_of_run pf env cfg vs)
      as [[Hops _] | (_ & Hops & _)]; rewrite Hops in Hin.
    - by apply elem_of_nil in Hin.
    - apply elem_of_ttl_options in Hin. subst t.
      rewrite configured_ttl_effective.
      destruct Hin as [Hpos [Hc | Hc]]; injection Hc as -> ->; auto. }
  split; [exact Hall |]. split.
  - intros Hreach Hpos.
    destruct (ttl_options_of_run pf env cfg vs)
      as [[_ Hno] | (_ & Hops & _)]; [contradiction |].
    rewrite Hops. subst t. rewrite configured_ttl_effective in *.
    unfold ttl_options.
    destruct (Z.ltb_spec 0 (effective_ttl env (i_ttl cfg))); [| lia].
    eexists. reflexivity.
  - intros Hsmall fd val Hin. fold t.
    destruct (Hall fd val Hin) as [Hpos [-> | ->]]; [left | by right].
    by rewrite Z.mod_small by lia.
Qed.

(** C6, the scenario ttl=0, default-ttl=16: the byte-sized option carries
    16. *)
Lemma C6_ttl_value_witness :
  ∃ rest,
    List.filter is_ttl_option
      (logged posix (test_env posix accepts_all None 16) (send_to_group 0) ∅)
    = CSetsockopt 3 IPPROTO_IP IP_MULTICAST_TTL (OptUChar 16) :: rest.
Proof.
  apply (proj1 (proj2 (C6_ttl_value posix
           (test_env posix accepts_all None 16) (send_to_group 0) ∅))).
  - vm_compute. repeat split; discriminate.
  - vm_compute. reflexivity.
Defined.

(** C6 as stated fails for a time-to-live of 256: the byte-sized option
    that is applied carries 0. *)
Lemma C6_ttl_256_applies_0 :
  ¬ ttl_applied_is_configured posix (test_env posix accepts_all None 16)
      (send_to_group 256) ∅.
Proof.
  intros H. specialize (H 3 (OptUChar 0)).
  destruct H as [H | H].
  - apply list_elem_of_In. vm_compute.
    repeat (first [left; reflexivity | right]).
  - vm_compute in H. discriminate.
  - vm_compute in H. discriminate.
Qed.

(** C7: once the socket is created, the tuning options of the build are
    all attempted, in order, and then the bind, whatever any of them
    returns; and what they return changes neither the return value, nor
    the calls made, nor what is written to [*p_socket] and to the
    variables. *)
Theorem C7_tuning_is_best_effort pf env cfg vs :
  ((resolved_bind env cfg).1 = 0 →
   os_socket env ≠ -1 →
   ∃ rest,
     logged pf env cfg vs
     = resolve_bind_call cfg :: CSocket
       :: tuning_calls pf (os_socket env)
       ++ bind_call pf env cfg (os_socket env) :: rest)
  ∧ (∀ f, same_outcome (run pf (with_tuning_answers f env) cfg vs)
                       (run pf env cfg vs)).
Proof.
  split; [| intros f; apply socket_level_answers_irrelevant].
  intros Hres Hfd.
  run_cases pf env cfg vs; try congruence.
  all: unfold branch_calls, bound_calls;
    repeat first [rewrite <- app_assoc | progress cbn [app]];
    eexists; reflexivity.
Qed.

(** C7, on a system that rejects every option of the socket level: the
    four tuning options are attempted, then the bind, and the call
    succeeds. *)
Lemma C7_tuning_is_best_effort_witness :
  ∃ rest,
    logged posix (test_env posix rejects_socket_level None 16)
      unicast_peer ∅
    = [CGetaddrinfo "192.168.1.20" 1234; CSocket;
       CSetsockopt 3 SOL_SOCKET SO_REUSEADDR (OptInt 1);
       CSetsockopt 3 SOL_SOCKET SO_REUSEPORT (OptInt 1);
       CSetsockopt 3 SOL_SOCKET SO_RCVBUF (OptInt 0x80000);
       CSetsockopt 3 SOL_SOCKET SO_SNDBUF (OptInt 0x80000);
       CBind 3 (Sockaddr (dotted_quad posix "192.168.1.20") 1234)]
      ++ rest.
Proof.
  apply (proj1 (C7_tuning_is_best_effort posix
                  (test_env posix rejects_socket_level None 16)
                  unicast_peer ∅)).
  - vm_compute. reflexivity.
  - vm_compute. discriminate.
Defined.

Lemma tuning_rejected_still_succeeds :
  retval posix (test_env posix rejects_socket_level None 16) unicast_peer ∅
  = 0.
Proof. vm_compute. reflexivity. Qed.

(** C8: the interface of a group join is the configured "miface-addr"
    when there is one, not empty, that [inet_addr] converts, and
    INADDR_ANY in every other case. *)
Theorem C8_join_interface pf env cfg vs fd imr :
  CSetsockopt fd IPPROTO_IP IP_ADD_SOURCE_MEMBERSHIP (OptMreqSource imr)
  ∈ logged pf env cfg vs →
  (∀ s, config_psz env "miface-addr" = Some s →
        s ≠ ""%string →
        inet_addr env s ≠ INADDR_NONE →
        imr_interface imr = inet_addr env s)
  ∧ ((∀ s, config_psz env "miface-addr" = Some s →
           s = ""%string ∨ inet_addr env s = INADDR_NONE) →
     imr_interface imr = INADDR_ANY).
Proof.
  intros Hin.
  apply (elem_of_filter_true is_join) in Hin; [| reflexivity].
  destruct (joins_of_run pf env cfg vs) as [Hj | Hj]; rewrite Hj in Hin.
  { by apply elem_of_nil in Hin. }
  apply list_elem_of_singleton in Hin. injection Hin as _ ->.
  cbn [join_request imr_interface]. unfold multicast_interface.
  destruct (config_psz env "miface-addr") as [s |].
  - destruct (empty_string s) eqn:He; cbn [negb andb].
    + apply empty_string_spec in He. split.
      * intros ? [= <-] ? ?. contradiction.
      * reflexivity.
    + destruct (Z.eqb_spec (inet_addr env s) INADDR_NONE) as [Hn | Hn];
        cbn [negb].
      * split; [| reflexivity]. intros ? [= <-] ? ?. contradiction.
      * split; [by intros ? [= <-] |].
        intros Hother. destruct (Hother s eq_refl) as [-> | ?]; done.
  - split; [intros ? [=] | reflexivity].
Qed.

(** C8, with "miface-addr" set to 192.168.1.5. *)
Lemma C8_join_interface_witness :
  imr_interface
    (MreqSource (dotted_quad posix "239.255.12.42")
       (dotted_quad posix "10.0.0.5") (dotted_quad posix "192.168.1.5"))
  = dotted_quad posix "192.168.1.5".
Proof.
  refine (proj1 (C8_join_interface posix
            (test_env posix accepts_all (Some "192.168.1.5"%string) 16)
            (receive_group "10.0.0.5") ∅ 3 _ _) "192.168.1.5"%string _ _ _).
  - apply list_elem_of_In. vm_compute.
    repeat (first [left; reflexivity | right]).
  - reflexivity.
  - discriminate.
  - vm_compute. discriminate.
Defined.

(** C9: a call that succeeds ends with the variable calls: one [var_Get]
    of "mtu" when the variable exists, whose value goes to [i_mtu]; else a
    [var_Get], a [var_Create] and a second [var_Get], and the value the
    created variable inherits goes to [i_mtu]; either way [i_mtu] is the
    value of the variable after the call. *)
Theorem C9_mtu_attached pf env cfg vs :
  retval pf env cfg vs = 0 →
  (∃ pre,
     logged pf env cfg vs
     = pre ++ List.filter is_var_call (logged pf env cfg vs)
     ∧ List.filter is_var_call pre = [])
  ∧ (∀ v, vs !! "mtu"%string = Some v →
          List.filter is_var_call (logged pf env cfg vs) = [CVarGet "mtu"]
          ∧ i_mtu (p_private (final pf env cfg vs)) = v
          ∧ vars (final pf env cfg vs) = vs)
  ∧ (vs !! "mtu"%string = None →
     List.filter is_var_call (logged pf env cfg vs)
     = [CVarGet "mtu"; CVarCreate "mtu"; CVarGet "mtu"]
     ∧ i_mtu (p_private (final pf env cfg vs)) = var_inherit env "mtu"
     ∧ vars (final pf env cfg vs)
       = <["mtu"%string := var_inherit env "mtu"]> vs)
  ∧ vars (final pf env cfg vs) !! "mtu"%string
    = Some (i_mtu (p_private (final pf env cfg vs))).
Proof.
  intros Hok.
  assert (Hmtu : List.filter is_var_call (mtu_calls vs) = mtu_calls vs).
  { unfold mtu_calls. by destruct (vs !! "mtu"%string). }
  assert (Hpre : ∀ pre,
    List.filter is_var_call pre = [] →
    (∃ pre',
       pre ++ mtu_calls vs
       = pre' ++ List.filter is_var_call (pre ++ mtu_calls vs)
       ∧ List.filter is_var_call pre' = [])
    ∧ List.filter is_var_call (pre ++ mtu_calls vs) = mtu_calls vs).
  { intros pre Hnone. rewrite List.filter_app, Hnone, Hmtu. cbn [app].
    split; [| reflexivity]. by exists pre. }
  run_cases pf env cfg vs; try discriminate.
  all: rewrite ?(app_assoc (branch_calls _ _ _ _)),
         ?(app_assoc (branch_calls _ _ _ _ ++ _)).
  all: match goal with
       | |- context [?pre ++ mtu_calls _] =>
           destruct (Hpre pre) as [Hsplit Hvar];
           [open_trace; filter_trace; reflexivity |]
       end.
  all: split; [exact Hsplit | rewrite Hvar].
  all: unfold ready, mtu_calls, mtu_value, mtu_vars;
    cbn [with_mtu with_handle i_mtu].
  all: destruct (vs !! "mtu"%string) as [v0 |] eqn:Hv.
  all: repeat split; try done; try congruence.
  all: apply lookup_insert_eq.
Qed.

(** C9, with no "mtu" variable and an inherited value of 1500. *)
Lemma C9_mtu_attached_witness :
  i_mtu (p_private (final posix (test_env posix accepts_all None 16)
                      unicast_peer ∅)) = 1500.
Proof.
  refine (proj1 (proj2 (proj1 (proj2 (proj2 (C9_mtu_attached posix
            (test_env posix accepts_all None 16) unicast_peer ∅ _))) _))).
  - vm_compute. reflexivity.
  - reflexivity.
Defined.



(** * Further properties of [OpenUDP] *)

(** ** Messages of a path *)

Lemma filter_tuning_msgs (f : msg_type * string → bool) pf env fd :
  (∀ text, f (MSG_DBG, text) = false) →
  List.filter f (tuning_msgs pf env fd) = [].
Proof.
  intros Hf. unfold tuning_msgs.
  repeat case_match; cbn; rewrite ?Hf; reflexivity.
Qed.

Lemma filter_broadcast_msgs (f : msg_type * string → bool) pf env fd a :
  (∀ text, f (MSG_WARN, text) = false) →
  List.filter f (broadcast_msgs pf env fd a) = [].
Proof.
  intros Hf. unfold broadcast_msgs, warn_broadcast.
  case_match; cbn; rewrite ?Hf; reflexivity.
Qed.

Lemma filter_send_msgs (f : msg_type * string → bool) pf env cfg fd :
  (∀ text, f (MSG_DBG, text) = false) →
  List.filter f (send_msgs pf env cfg fd) = [].
Proof.
  intros Hf. unfold send_msgs, ttl_msgs, dbg_ttl.
  repeat case_match; cbn; rewrite ?Hf; reflexivity.
Qed.

Lemma bind_error_is_error pf sock : is_error (bind_error pf sock) = true.
Proof. unfold bind_error. by case_match. Qed.

Ltac filter_msgs :=
  unfold branch_msgs, bound_msgs;
  repeat first
    [ rewrite List.filter_app
    | rewrite filter_tuning_msgs by (intros; reflexivity)
    | rewrite filter_broadcast_msgs by (intros; reflexivity)
    | rewrite filter_send_msgs by (intros; reflexivity)
    | rewrite bind_error_is_error
    | rewrite app_nil_r
    | progress cbn [List.filter app is_error fst dbg_resolving dbg_join
                    err_join err_mif err_ttl dbg_ttl warn_broadcast] ].

(** A call that succeeds logs no error message; a call that fails after
    the bind address resolved logs exactly one, and logs it last; a call
    whose bind address does not resolve logs no error message but ends on
    the warning of [BuildAddr]. *)
Theorem failure_is_reported_once pf env cfg vs :
  (retval pf env cfg vs = 0 →
   List.filter is_error (msgs (final pf env cfg vs)) = [])
  ∧ (retval pf env cfg vs ≠ 0 →
     (resolved_bind env cfg).1 = 0 →
     ∃ e, List.filter is_error (msgs (final pf env cfg vs)) = [e]
          ∧ last (msgs (final pf env cfg vs)) = Some e)
  ∧ ((resolved_bind env cfg).1 ≠ 0 →
     List.filter is_error (msgs (final pf env cfg vs)) = []
     ∧ last (msgs (final pf env cfg vs)) = Some warn_resolution).
Proof.
  run_cases pf env cfg vs.
  all: repeat split; try intros; try done; try (exfalso; congruence).
  all: try (eexists; split).
  all: rewrite ?last_app, ?last_cons; try (filter_msgs; reflexivity).
  all: rewrite ?last_snoc; reflexivity.
Qed.

(** On a system that rejects every option of the IP level, sending to a
    group fails on the time-to-live, with one error message, the last one;
    and a bind address that does not resolve ends on the warning. *)
Lemma failure_is_reported_once_witness :
  (∃ e,
     List.filter is_error
       (msgs (final posix
                (test_env posix
                   (λ _ level _ _,
                      match level with IPPROTO_IP => -1 | SOL_SOCKET => 0 end)
                   None 16)
                (send_to_group 16) ∅)) = [e]
     ∧ last (msgs (final posix
                     (test_env posix
                        (λ _ level _ _,
                           match level with
                           | IPPROTO_IP => -1 | SOL_SOCKET => 0
                           end)
                        None 16)
                     (send_to_group 16) ∅)) = Some e)
  ∧ List.filter is_error
      (msgs (final posix (test_env posix accepts_all None 16)
               (NetworkSocket "nowhere" 1234 "" 0 0 0 0) ∅)) = []
  ∧ last (msgs (final posix (test_env posix accepts_all None 16)
                  (NetworkSocket "nowhere" 1234 "" 0 0 0 0) ∅))
    = Some warn_resolution.
Proof.
  split.
  - apply (failure_is_reported_once posix
             (test_env posix
                (λ _ level _ _,
                   match level with IPPROTO_IP => -1 | SOL_SOCKET => 0 end)
                None 16)
             (send_to_group 16) ∅).
    + vm_compute. discriminate.
    + vm_compute. reflexivity.
  - apply (failure_is_reported_once posix (test_env posix accepts_all None 16)
             (NetworkSocket "nowhere" 1234 "" 0 0 0 0) ∅).
    vm_compute. discriminate.
Defined.

(** ** When the call succeeds *)

(** The call returns 0 exactly when none of its fatal checks fires: the
    bind address resolves, the socket is created and bound, and then
    either the join is accepted, or the server address resolves, the
    connect is accepted and, for a multicast peer, so are the outgoing
    interface and the time-to-live. *)
Theorem success_iff_all_steps_succeed pf env cfg vs :
  retval pf env cfg vs = 0 ↔ all_steps_succeed pf env cfg.
Proof.
  unfold all_steps_succeed, bound.
  run_cases pf env cfg vs; (split; [try discriminate | intros Hall]).
  all: repeat match goal with
              | H : joins _ _ _ = _ |- _ => rewrite H in *
              end.
  all: cbn [returned join_option] in *.
  all: try (intros _; repeat split; done).
  all: try reflexivity.
  all: try (intros _; repeat split; tauto).
  all: exfalso; destruct Hall as ((? & ? & ?) & ?); try congruence; try lia.
  all: intuition congruence.
Qed.

Lemma success_iff_all_steps_succeed_witness :
  retval posix (test_env posix accepts_all None 16) unicast_peer ∅ = 0.
Proof.
  apply (proj2 (success_iff_all_steps_succeed posix
                  (test_env posix accepts_all None 16) unicast_peer ∅)).
  vm_compute. repeat split; discriminate.
Defined.

(** ** What the call leaves alone *)

(** The call writes [i_handle] and [i_mtu] only, and [i_mtu] only when it
    succeeds. *)
Theorem writes_handle_and_mtu_only pf env cfg vs :
  psz_bind_addr (p_private (final pf env cfg vs)) = psz_bind_addr cfg
  ∧ i_bind_port (p_private (final pf env cfg vs)) = i_bind_port cfg
  ∧ psz_server_addr (p_private (final pf env cfg vs)) = psz_server_addr cfg
  ∧ i_server_port (p_private (final pf env cfg vs)) = i_server_port cfg
  ∧ i_ttl (p_private (final pf env cfg vs)) = i_ttl cfg
  ∧ (retval pf env cfg vs ≠ 0 →
     i_mtu (p_private (final pf env cfg vs)) = i_mtu cfg).
Proof.
  run_cases pf env cfg vs; repeat split; try done.
Qed.

Lemma writes_handle_and_mtu_only_witness :
  i_mtu (p_private (final posix (test_env posix accepts_all None 16)
                      (NetworkSocket "no.such.host" 1234 "" 0 0 7 1400) ∅))
  = 1400.
Proof.
  apply (writes_handle_and_mtu_only posix (test_env posix accepts_all None 16)
           (NetworkSocket "no.such.host" 1234 "" 0 0 7 1400) ∅).
  vm_compute. discriminate.
Defined.

(** A call that fails makes no variable call and leaves the variables as
    they were; any call leaves every variable other than "mtu" as it was,
    and "mtu" too when it exists. *)
Theorem variables_left_alone pf env cfg vs :
  (retval pf env cfg vs ≠ 0 →
   List.filter is_var_call (logged pf env cfg vs) = []
   ∧ vars (final pf env cfg vs) = vs)
  ∧ (∀ name, name ≠ "mtu"%string →
             vars (final pf env cfg vs) !! name = vs !! name)
  ∧ (∀ v, vs !! "mtu"%string = Some v → vars (final pf env cfg vs) = vs).
Proof.
  assert (Hother : ∀ name, name ≠ "mtu"%string →
                           mtu_vars env vs !! name = vs !! name).
  { intros name Hne. unfold mtu_vars.
    destruct (vs !! "mtu"%string); [reflexivity |].
    by rewrite lookup_insert_ne. }
  assert (Hsame : ∀ v, vs !! "mtu"%string = Some v → mtu_vars env vs = vs).
  { intros v Hv. unfold mtu_vars. by rewrite Hv. }
  run_cases pf env cfg vs.
  all: split; [intros Hfail | split; [intros name Hne | intros v Hv]].
  all: try done; eauto.
  all: split; [| reflexivity]; open_trace; filter_trace; reflexivity.
Qed.

Lemma variables_left_alone_witness :
  vars (final posix (test_env posix accepts_all None 16) unicast_peer
          {["mtu"%string := 1200; "other"%string := 7]})
  = {["mtu"%string := 1200; "other"%string := 7]}.
Proof.
  apply (proj2 (proj2 (variables_left_alone posix
           (test_env posix accepts_all None 16) unicast_peer
           {["mtu"%string := 1200; "other"%string := 7]})) 1200).
  vm_compute. reflexivity.
Defined.

(** ** The descriptor *)

Ltac on_descriptor_cases :=
  repeat case_match;
  repeat first [ apply Forall_nil_2
               | apply Forall_cons_2; [intros ? [= <-]; reflexivity |]
               | apply Forall_cons_2; [intros ? [=] |] ].

Lemma tuning_calls_on_descriptor pf fd :
  Forall (on_descriptor fd) (tuning_calls pf fd).
Proof. unfold tuning_calls. cbn [app]. on_descriptor_cases. Qed.

Lemma broadcast_calls_on_descriptor pf fd a :
  Forall (on_descriptor fd) (broadcast_calls pf fd a).
Proof. unfold broadcast_calls, broadcast_option. on_descriptor_cases. Qed.

Lemma send_calls_on_descriptor pf env cfg fd :
  Forall (on_descriptor fd) (send_calls pf env cfg fd).
Proof.
  unfold send_calls, mif_calls, ttl_calls, ttl_options, ttl_uchar, ttl_int.
  case_match; [| constructor].
  apply Forall_app; split; [| apply Forall_app; split];
    on_descriptor_cases.
Qed.

Lemma mif_calls_on_descriptor env fd :
  Forall (on_descriptor fd) (mif_calls env fd).
Proof. unfold mif_calls. on_descriptor_cases. Qed.

Lemma mtu_calls_on_descriptor vs fd :
  Forall (on_descriptor fd) (mtu_calls vs).
Proof. unfold mtu_calls. on_descriptor_cases. Qed.

Lemma branch_calls_on_descriptor pf env cfg fd :
  Forall (on_descriptor fd) (branch_calls pf env cfg fd).
Proof.
  unfold branch_calls, bound_calls, bind_call, resolve_bind_call.
  rewrite !Forall_app, !Forall_cons, Forall_app, Forall_cons.
  repeat split;
    auto using tuning_calls_on_descriptor, broadcast_calls_on_descriptor,
      Forall_nil_2.
  all: try (intros ? [= <-]; reflexivity); try (intros ? [=]).
Qed.

(** Every call that takes a descriptor is made on the one [socket]
    returned, which is not -1. *)
Theorem calls_use_the_created_socket pf env cfg vs c fd :
  c ∈ logged pf env cfg vs →
  descriptor_of c = Some fd →
  fd = os_socket env ∧ fd ≠ -1.
Proof.
  intros Hin Hfd.
  assert (Hall : Forall (on_descriptor (os_socket env))
                   (logged pf env cfg vs)
                 ∧ (os_socket env = -1 →
                    Forall (λ c, descriptor_of c = None)
                      (logged pf env cfg vs))).
  { run_cases pf env cfg vs; (split; [| intros; try congruence]).
    all: try (pose proof (branch_calls_on_descriptor pf env cfg
                            (os_socket env)) as Hbranch;
              unfold branch_calls in Hbranch;
              apply Forall_app in Hbranch as [Hbound _]).
    all: unfold connect_calls, connect_call, resolve_bind_call,
           resolve_server_call, join_calls, join_option.
    all: rewrite ?Forall_app, ?Forall_cons, ?Forall_app, ?Forall_cons.
    all: repeat split;
      auto using branch_calls_on_descriptor, send_calls_on_descriptor,
        mif_calls_on_descriptor, mtu_calls_on_descriptor, Forall_nil_2.
    all: try (intros ? [= <-]; reflexivity); try (intros ? [=]). }
  destruct Hall as [Hall Hnone].
  rewrite Forall_forall in Hall.
  pose proof (Hall c Hin fd Hfd) as ->. split; [reflexivity |].
  intros Hminus. specialize (Hnone Hminus).
  rewrite Forall_forall in Hnone. rewrite (Hnone c Hin) in Hfd. discriminate.
Qed.

Lemma calls_use_the_created_socket_witness :
  3 = os_socket (test_env posix accepts_all None 16) ∧ 3 ≠ -1.
Proof.
  apply (calls_use_the_created_socket posix
           (test_env posix accepts_all None 16) unicast_peer ∅
           (CConnect 3 (Sockaddr (dotted_quad posix "192.168.1.10") 5000)) 3).
  - apply list_elem_of_In. vm_compute.
    repeat (first [left; reflexivity | right]).
  - reflexivity.
Defined.

(** ** The bind, the join and the multicast send options *)

Lemma filter_mif_calls_interface env fd :
  List.filter is_interface_option (mif_calls env fd)
  = match config_psz env "miface-addr" with
    | Some s => [CSetsockopt fd IPPROTO_IP IP_MULTICAST_IF
                   (OptInAddr (inet_addr env s))]
    | None => []
    end.
Proof. unfold mif_calls. by case_match. Qed.

Lemma filter_ttl_calls_lookup env fd i_ttl :
  List.filter is_config_int (ttl_calls env fd i_ttl)
  = if i_ttl <=? 0 then [CConfigGetInt "ttl"] else [].
Proof.
  unfold ttl_calls. rewrite List.filter_app, filter_ttl_options by done.
  rewrite app_nil_r. by case_match.
Qed.

Ltac filter_calls :=
  repeat first
    [ rewrite List.filter_app
    | rewrite filter_tuning_calls by classifier_side
    | rewrite filter_broadcast_calls by classifier_side
    | rewrite filter_mif_calls by classifier_side
    | rewrite filter_mif_calls_interface
    | rewrite filter_mtu_calls by classifier_side
    | rewrite filter_send_calls by classifier_side
    | rewrite filter_ttl_calls_lookup
    | rewrite filter_ttl_calls by classifier_side
    | rewrite filter_ttl_options by classifier_side
    | rewrite ttl_options_are_ttl
    | rewrite app_nil_r
    | progress cbn [List.filter app is_resolve is_descriptor_call is_connect
                    is_join is_ttl_option is_broadcast is_var_call is_bind
                    is_interface_option is_config_int] ].

(** Once the socket is created, [bind] is called once: on the resolved
    address, except under Win32 for a multicast address, where it is
    called on INADDR_ANY with the resolved port. *)
Theorem bind_address pf env cfg vs :
  (resolved_bind env cfg).1 = 0 →
  os_socket env ≠ -1 →
  ∃ a,
    List.filter is_bind (logged pf env cfg vs) = [CBind (os_socket env) a]
    ∧ (WIN32 pf = false → a = (resolved_bind env cfg).2)
    ∧ (¬ multicast_range (ntohl pf (sin_addr (resolved_bind env cfg).2)) →
       a = (resolved_bind env cfg).2)
    ∧ (WIN32 pf = true →
       multicast_range (ntohl pf (sin_addr (resolved_bind env cfg).2)) →
       a = Sockaddr INADDR_ANY (sin_port (resolved_bind env cfg).2)).
Proof.
  intros Hres Hfd.
  exists (bind_target pf (resolved_bind env cfg).2). split.
  - run_cases pf env cfg vs; try congruence.
    all: open_trace; filter_calls; reflexivity.
  - unfold bind_target. rewrite <- IN_MULTICAST_ntohl.
    destruct (WIN32 pf),
      (IN_MULTICAST (ntohl pf (sin_addr (resolved_bind env cfg).2)));
      cbn [andb]; repeat split; intros; congruence.
Qed.

Lemma bind_address_witness :
  ∃ a,
    List.filter is_bind
      (logged (Platform true false true false true true false)
         (test_env (Platform true false true false true true false)
            accepts_all None 16)
         (receive_group "10.0.0.5") ∅)
    = [CBind 3 a]
    ∧ a = Sockaddr INADDR_ANY 5004.
Proof.
  destruct (bind_address (Platform true false true false true true false)
              (test_env (Platform true false true false true true false)
                 accepts_all None 16)
              (receive_group "10.0.0.5") ∅) as (a & Hcalls & _ & _ & Hwin).
  - vm_compute. reflexivity.
  - vm_compute. discriminate.
  - exists a. split; [exact Hcalls |]. apply Hwin.
    + reflexivity.
    + vm_compute. split; discriminate.
Defined.

(** Every group join asks for the resolved bind address as the group and
    for [inet_addr] of the server string as the source, whatever that
    string is. *)
Theorem join_group_and_source pf env cfg vs fd imr :
  CSetsockopt fd IPPROTO_IP IP_ADD_SOURCE_MEMBERSHIP (OptMreqSource imr)
  ∈ logged pf env cfg vs →
  imr_multiaddr imr = sin_addr (resolved_bind env cfg).2
  ∧ imr_sourceaddr imr = inet_addr env (psz_server_addr cfg).
Proof.
  intros Hin.
  apply (elem_of_filter_true is_join) in Hin; [| reflexivity].
  destruct (joins_of_run pf env cfg vs) as [Hj | Hj]; rewrite Hj in Hin.
  { by apply elem_of_nil in Hin. }
  apply list_elem_of_singleton in Hin. injection Hin as _ ->. done.
Qed.

Lemma join_group_and_source_witness :
  imr_multiaddr
    (MreqSource (dotted_quad posix "239.255.12.42")
       (dotted_quad posix "10.0.0.5") INADDR_ANY)
  = dotted_quad posix "239.255.12.42"
  ∧ imr_sourceaddr
      (MreqSource (dotted_quad posix "239.255.12.42")
         (dotted_quad posix "10.0.0.5") INADDR_ANY)
    = dotted_quad posix "10.0.0.5".
Proof.
  apply (join_group_and_source posix (test_env posix accepts_all None 16)
           (receive_group "10.0.0.5") ∅ 3).
  apply list_elem_of_In. vm_compute.
  repeat (first [left; reflexivity | right]).
Defined.

(** The options of a run that sets multicast send options: it reached
    that step, and they are the outgoing interface, if one is configured,
    then the lookup of the default time-to-live, if none is configured,
    then the time-to-live options; any other run has none of them. *)
Lemma send_options_of_run pf env cfg vs :
  (¬ reaches_send_options pf env cfg
   ∧ List.filter is_interface_option (logged pf env cfg vs) = []
   ∧ List.filter is_config_int (logged pf env cfg vs) = []
   ∧ List.filter is_ttl_option (logged pf env cfg vs) = [])
  ∨ (reaches_send_options pf env cfg
     ∧ List.filter is_interface_option (logged pf env cfg vs)
       = match config_psz env "miface-addr" with
         | Some s => [CSetsockopt (os_socket env) IPPROTO_IP IP_MULTICAST_IF
                        (OptInAddr (inet_addr env s))]
         | None => []
         end
     ∧ (mif_fails env (os_socket env) = true →
        retval pf env cfg vs = VLC_EGENERIC
        ∧ List.filter is_config_int (logged pf env cfg vs) = []
        ∧ List.filter is_ttl_option (logged pf env cfg vs) = []
        ∧ last (logged pf env cfg vs) = Some (CClose (os_socket env)))
     ∧ (mif_fails env (os_socket env) = false →
        List.filter is_config_int (logged pf env cfg vs)
        = if i_ttl cfg <=? 0 then [CConfigGetInt "ttl"] else [])).
Proof.
  unfold reaches_send_options, bound.
  run_cases pf env cfg vs; open_trace.
  1-7: left; split;
    [ intros ((? & ? & ?) & ? & ? & ? & ?); try congruence; try lia
    | repeat split; filter_calls; reflexivity ].
  - right. split; [done |].
    split; [filter_calls; reflexivity |]. split; [| congruence].
    intros _. repeat first [rewrite last_cons | rewrite last_app].
    cbn [last]. repeat split; filter_calls; reflexivity.
  - right. split; [done |]. unfold send_calls.
    match goal with H : sends_multicast _ _ _ = true |- _ => rewrite H end.
    split; [filter_calls; reflexivity |]. split; [congruence |].
    intros _. filter_calls. reflexivity.
  - destruct (sends_multicast pf env cfg) eqn:Hsm.
    + right. split; [done |]. unfold send_calls. rewrite Hsm.
      match goal with
      | H : true = true → _ |- _ => destruct H as [Hmif Httl]; [done |]
      end.
      split; [filter_calls; reflexivity |]. split; [congruence |].
      intros _. filter_calls. reflexivity.
    + left. split; [intros (_ & _ & _ & _ & ?); congruence |].
      unfold send_calls. rewrite Hsm.
      repeat split; filter_calls; reflexivity.
Qed.

Lemma ntohl_INADDR_NONE pf : ntohl pf INADDR_NONE = 0xFFFFFFFF.
Proof. unfold ntohl. by destruct (WORDS_BIGENDIAN pf). Qed.

Lemma filter_nonempty (f : call → bool) (l : list call) (x : call) :
  x ∈ l → f x = true → List.filter f l ≠ [].
Proof.
  intros Hin Hf Hnil. apply (elem_of_filter_true f) in Hin; [| done].
  rewrite Hnil in Hin. by apply elem_of_nil in Hin.
Qed.

(** The multicast send options are decided by what [inet_addr] reads in
    the string of the server address, not by the address it resolved to:
    the outgoing interface, the lookup of the default time-to-live and the
    time-to-live options occur only on a build with IP_MULTICAST_IF and
    when that string reads as a class D address, so never for a string
    that [inet_addr] does not convert. *)
Theorem send_options_follow_the_server_string pf env cfg vs c :
  c ∈ logged pf env cfg vs →
  is_interface_option c || is_config_int c || is_ttl_option c = true →
  HAVE_IP_MULTICAST_IF pf = true
  ∧ multicast_range (ntohl pf (inet_addr env (psz_server_addr cfg)))
  ∧ inet_addr env (psz_server_addr cfg) ≠ INADDR_NONE.
Proof.
  intros Hin Hc.
  destruct (send_options_of_run pf env cfg vs)
    as [(_ & Hi & Hl & Ht) | ((_ & _ & _ & _ & Hsm) & _)].
  - exfalso. apply orb_true_iff in Hc as [Hc | Hc];
      [apply orb_true_iff in Hc as [Hc | Hc] |].
    + by apply (filter_nonempty _ _ _ Hin Hc).
    + by apply (filter_nonempty _ _ _ Hin Hc).
    + by apply (filter_nonempty _ _ _ Hin Hc).
  - unfold sends_multicast in Hsm. apply andb_true_iff in Hsm as [Hif Hmc].
    apply IN_MULTICAST_ntohl in Hmc. split; [done |]. split; [done |].
    intros Hnone. rewrite Hnone, ntohl_INADDR_NONE in Hmc.
    unfold multicast_range in Hmc. lia.
Qed.

Lemma send_options_follow_the_server_string_witness :
  HAVE_IP_MULTICAST_IF posix = true
  ∧ multicast_range (ntohl posix (dotted_quad posix "239.255.12.42"))
  ∧ dotted_quad posix "239.255.12.42" ≠ INADDR_NONE.
Proof.
  apply (send_options_follow_the_server_string posix
           (test_env posix accepts_all None 16) (send_to_group 0) ∅
           (CConfigGetInt "ttl")).
  - apply list_elem_of_In. vm_compute.
    repeat (first [left; reflexivity | right]).
  - reflexivity.
Defined.

(** A run that reaches the multicast send options sets the outgoing
    interface exactly when "miface-addr" is configured, to what
    [inet_addr] reads in it, without the checks of the join: an empty or
    unreadable string is passed on as it is. When the system refuses the
    option, the call fails before any time-to-live is looked up or set, and
    closes the socket. *)
Theorem outgoing_interface pf env cfg vs :
  reaches_send_options pf env cfg →
  List.filter is_interface_option (logged pf env cfg vs)
  = match config_psz env "miface-addr" with
    | Some s => [CSetsockopt (os_socket env) IPPROTO_IP IP_MULTICAST_IF
                   (OptInAddr (inet_addr env s))]
    | None => []
    end
  ∧ (mif_fails env (os_socket env) = true →
     retval pf env cfg vs = VLC_EGENERIC
     ∧ List.filter is_config_int (logged pf env cfg vs) = []
     ∧ List.filter is_ttl_option (logged pf env cfg vs) = []
     ∧ last (logged pf env cfg vs) = Some (CClose (os_socket env))).
Proof.
  intros Hreach.
  destruct (send_options_of_run pf env cfg vs)
    as [(Hno & _) | (_ & Hi & Hf & _)]; [contradiction | done].
Qed.

Lemma outgoing_interface_witness :
  List.filter is_interface_option
    (logged posix (test_env posix accepts_all (Some "") 16)
       (send_to_group 16) ∅)
  = [CSetsockopt 3 IPPROTO_IP IP_MULTICAST_IF (OptInAddr INADDR_NONE)].
Proof.
  refine (proj1 (outgoing_interface posix
                   (test_env posix accepts_all (Some ""%string) 16)
                   (send_to_group 16) ∅ _)).
  vm_compute. repeat split; discriminate.
Defined.

(** The default time-to-live is looked up only when none is configured:
    never for a positive [i_ttl], and exactly once, as "ttl", by a run that
    reaches the time-to-live step with [i_ttl] zero or negative. *)
Theorem default_ttl_lookup pf env cfg vs :
  (0 < i_ttl cfg → List.filter is_config_int (logged pf env cfg vs) = [])
  ∧ (i_ttl cfg ≤ 0 →
     reaches_ttl_step pf env cfg →
     List.filter is_config_int (logged pf env cfg vs)
     = [CConfigGetInt "ttl"]).
Proof.
  destruct (send_options_of_run pf env cfg vs)
    as [(Hno & _ & Hl & _) | (_ & _ & Hf & Hs)].
  - split; [done |]. intros _ (? & ? & ? & ? & ? & ?).
    exfalso. apply Hno. unfold reaches_send_options. tauto.
  - split.
    + intros Hpos. destruct (mif_fails env (os_socket env)).
      * by apply Hf.
      * rewrite Hs by done. destruct (Z.leb_spec (i_ttl cfg) 0); [lia | done].
    + intros Hle (_ & _ & _ & _ & _ & Hmif). rewrite Hs by done.
      destruct (Z.leb_spec (i_ttl cfg) 0); [done | lia].
Qed.

Lemma default_ttl_lookup_witness :
  List.filter is_config_int
    (logged posix (test_env posix accepts_all None 16) (send_to_group 12) ∅)
  = []
  ∧ List.filter is_config_int
      (logged posix (test_env posix accepts_all None 16) (send_to_group 0) ∅)
    = [CConfigGetInt "ttl"].
Proof.
  split.
  - apply (proj1 (default_ttl_lookup posix
                    (test_env posix accepts_all None 16)
                    (send_to_group 12) ∅)).
    reflexivity.
  - apply (proj2 (default_ttl_lookup posix
                    (test_env posix accepts_all None 16)
                    (send_to_group 0) ∅)).
    + vm_compute. discriminate.
    + vm_compute. repeat split; discriminate.
Defined.

(** ** The options whose answer is not read *)

Lemma OpenUDP_path_reuse pf env cfg vs f rc w :
  OpenUDP_path pf (with_reuse_answers f env) cfg vs rc w →
  OpenUDP_path pf env cfg vs rc w.
Proof.
  destruct 1.
  all: eapply OpenUDP_path_eq;
    [ first [ by apply resolution_failed
            | by apply socket_failed
            | by apply (bind_failed pf env cfg vs fd)
            | by apply (join_failed pf env cfg vs fd)
            | by apply (joined pf env cfg vs fd)
            | by apply (remote_resolution_failed pf env cfg vs fd)
            | by apply (connect_failed pf env cfg vs fd)
            | by apply (interface_failed pf env cfg vs fd)
            | by apply (ttl_failed pf env cfg vs fd)
            | by apply (connected pf env cfg vs fd) ]
    | reflexivity ].
Qed.

(** What the system answers to SO_REUSEADDR and SO_REUSEPORT is never
    read: with any other answer the call returns the same value and leaves
    the same state, messages included. *)
Theorem reuse_answers_are_not_read pf env cfg vs f :
  run pf (with_reuse_answers f env) cfg vs = run pf env cfg vs.
Proof.
  pose proof (OpenUDP_runs pf (with_reuse_answers f env) cfg vs) as H'.
  pose proof (OpenUDP_runs pf env cfg vs) as H.
  unfold follows_path in *.
  apply OpenUDP_path_reuse in H'.
  destruct (OpenUDP_path_functional _ _ _ _ _ _ _ _ H' H) as [Hrc Hw].
  destruct (run pf (with_reuse_answers f env) cfg vs),
    (run pf env cfg vs); cbn in *. congruence.
Qed.

Lemma elem_of_tuning_msgs pf env fd m :
  m ∈ tuning_msgs pf env fd ↔
  HAVE_SO_RCVBUF pf = true
  ∧ ((m = dbg_rcvbuf
      ∧ os_setsockopt env fd SOL_SOCKET SO_RCVBUF (OptInt 0x80000) = -1)
     ∨ (m = dbg_sndbuf
        ∧ os_setsockopt env fd SOL_SOCKET SO_SNDBUF (OptInt 0x80000) = -1)).
Proof.
  unfold tuning_msgs, dbg_rcvbuf, dbg_sndbuf.
  destruct (HAVE_SO_RCVBUF pf);
    [| rewrite elem_of_nil; intuition discriminate ].
  destruct (Z.eqb_spec
              (os_setsockopt env fd SOL_SOCKET SO_RCVBUF (OptInt 0x80000))
              (-1)),
    (Z.eqb_spec
       (os_setsockopt env fd SOL_SOCKET SO_SNDBUF (OptInt 0x80000)) (-1)).
  all: rewrite elem_of_app, ?elem_of_cons, ?elem_of_nil; intuition.
Qed.

Lemma elem_of_broadcast_msgs pf env fd a m :
  m ∈ broadcast_msgs pf env fd a → m = warn_broadcast.
Proof.
  unfold broadcast_msgs. case_match.
  - by intros ->%list_elem_of_singleton.
  - by intros ?%elem_of_nil.
Qed.

Lemma elem_of_send_msgs pf env cfg fd m :
  m ∈ send_msgs pf env cfg fd → m = dbg_ttl.
Proof.
  unfold send_msgs, ttl_msgs. repeat case_match.
  all: first [by intros ->%list_elem_of_singleton | by intros ?%elem_of_nil].
Qed.

Lemma bind_error_level pf sock : (bind_error pf sock).1 = MSG_ERR.
Proof. unfold bind_error. by case_match. Qed.

(** Only the tuning of the socket logs a message about a buffer size. *)
Lemma buffer_msgs_of_run pf env cfg vs m :
  m = dbg_rcvbuf ∨ m = dbg_sndbuf →
  m ∈ msgs (final pf env cfg vs)
  ↔ (resolved_bind env cfg).1 = 0
    ∧ os_socket env ≠ -1
    ∧ m ∈ tuning_msgs pf env (os_socket env).
Proof.
  intros Hm.
  assert (Hlvl : m.1 = MSG_DBG) by (by destruct Hm as [-> | ->]).
  assert (H1 : m ≠ dbg_resolving) by (by destruct Hm as [-> | ->]).
  assert (H2 : m ≠ dbg_join) by (by destruct Hm as [-> | ->]).
  assert (H3 : m ≠ dbg_ttl) by (by destruct Hm as [-> | ->]).
  assert (H4 : m ≠ warn_broadcast) by (by destruct Hm as [-> | ->]).
  clear Hm.
  run_cases pf env cfg vs; unfold branch_msgs, bound_msgs.
  all: rewrite ?elem_of_app, ?elem_of_cons, ?elem_of_app, ?elem_of_cons,
         ?elem_of_nil.
  all: split; [intros Hin | intros (? & ? & Hin)]; try congruence.
  all: repeat match goal with
              | H : _ ∨ _ |- _ => destruct H
              | H : _ ∈ broadcast_msgs _ _ _ _ |- _ =>
                  apply elem_of_broadcast_msgs in H
              | H : _ ∈ send_msgs _ _ _ _ |- _ =>
                  apply elem_of_send_msgs in H
              | H : _ = bind_error _ _ |- _ =>
                  rewrite H, bind_error_level in Hlvl
              end.
  all: try done; try (subst m; discriminate); try tauto.
Qed.

(** A buffer size that the system refuses is only reported, as a debug
    message: the message of SO_RCVBUF, and likewise of SO_SNDBUF, is
    logged exactly when the socket was created, the build has SO_RCVBUF
    and the system answered -1 to the option; any other answer is
    silent. *)
Theorem buffer_refusal_is_a_debug_message pf env cfg vs :
  (dbg_rcvbuf ∈ msgs (final pf env cfg vs)
   ↔ (resolved_bind env cfg).1 = 0
     ∧ os_socket env ≠ -1
     ∧ HAVE_SO_RCVBUF pf = true
     ∧ os_setsockopt env (os_socket env) SOL_SOCKET SO_RCVBUF
         (OptInt 0x80000) = -1)
  ∧ (dbg_sndbuf ∈ msgs (final pf env cfg vs)
     ↔ (resolved_bind env cfg).1 = 0
       ∧ os_socket env ≠ -1
       ∧ HAVE_SO_RCVBUF pf = true
       ∧ os_setsockopt env (os_socket env) SOL_SOCKET SO_SNDBUF
           (OptInt 0x80000) = -1).
Proof.
  split.
  - rewrite buffer_msgs_of_run, elem_of_tuning_msgs by auto.
    unfold dbg_rcvbuf, dbg_sndbuf. intuition discriminate.
  - rewrite buffer_msgs_of_run, elem_of_tuning_msgs by auto.
    unfold dbg_rcvbuf, dbg_sndbuf. intuition discriminate.
Qed.

Lemma buffer_refusal_is_a_debug_message_witness :
  dbg_rcvbuf
  ∈ msgs (final posix (test_env posix rejects_socket_level None 16)
            unicast_peer ∅).
Proof.
  apply (proj1 (buffer_refusal_is_a_debug_message posix
                  (test_env posix rejects_socket_level None 16)
                  unicast_peer ∅)).
  vm_compute. repeat split; discriminate.
Defined.

(** ** Join or connect *)

(** Where the group join is compiled, a bound socket whose local address
    is multicast is joined to the group, and the server address is neither
    resolved nor connected to; on every build, a bound socket whose local
    address is not multicast joins no group: the server address is
    resolved and, if that succeeds, connected to. *)
Theorem bind_address_selects_join_or_connect pf env cfg vs :
  (HAVE_IP_ADD_SOURCE_MEMBERSHIP pf = true →
   multicast_bind_joins pf env cfg vs)
  ∧ unicast_bind_connects pf env cfg vs.
Proof.
  split.
  - intros Hssm Hbound Hmc.
    apply IN_MULTICAST_ntohl in Hmc.
    destruct (branch_of_run pf env cfg vs Hbound)
      as [(_ & ? & ? & ?) | (Hj & _)]; [done |].
    unfold joins in Hj. rewrite Hssm, Hmc in Hj. discriminate.
  - intros Hbound Hmc.
    rewrite <- IN_MULTICAST_ntohl in Hmc.
    destruct (branch_of_run pf env cfg vs Hbound)
      as [(Hj & _) | (_ & ? & ? & ?)]; [| done].
    unfold joins in Hj. apply andb_true_iff in Hj as [_ Hj]. contradiction.
Qed.

(** The scenario bind="239.255.12.42", server="10.0.0.5": one join of the
    group, no connect. *)
Lemma bind_address_selects_join_or_connect_witness :
  List.filter is_join
    (logged posix (test_env posix accepts_all None 16)
       (receive_group "10.0.0.5") ∅)
  = [CSetsockopt 3 IPPROTO_IP IP_ADD_SOURCE_MEMBERSHIP
       (OptMreqSource
          (MreqSource (dotted_quad posix "239.255.12.42")
             (dotted_quad posix "10.0.0.5") INADDR_ANY))]
  ∧ List.filter is_connect
      (logged posix (test_env posix accepts_all None 16)
         (receive_group "10.0.0.5") ∅) = []
  ∧ List.filter is_resolve
      (logged posix (test_env posix accepts_all None 16)
         (receive_group "10.0.0.5") ∅)
    = [CGetaddrinfo "239.255.12.42" 5004].
Proof.
  apply (proj1 (bind_address_selects_join_or_connect posix
                  (test_env posix accepts_all None 16)
                  (receive_group "10.0.0.5") ∅)).
  - reflexivity.
  - vm_compute. repeat split; discriminate.
  - vm_compute. split; discriminate.
Defined.

(** The build without IP_ADD_SOURCE_MEMBERSHIP has no code that joins a
    group: no run logs a join, and every bound socket, whatever its local
    address, has the server address resolved and, if that succeeds,
    connected to. *)
Theorem no_join_without_source_membership pf env cfg vs :
  HAVE_IP_ADD_SOURCE_MEMBERSHIP pf = false →
  List.filter is_join (logged pf env cfg vs) = []
  ∧ (bound pf env cfg →
     List.filter is_resolve (logged pf env cfg vs)
     = [resolve_bind_call cfg; resolve_server_call cfg]
     ∧ ((resolved_server env cfg).1 = 0 →
        List.filter is_connect (logged pf env cfg vs)
        = [connect_call env cfg (os_socket env)])).
Proof.
  intros Hssm. split.
  - run_cases pf env cfg vs;
      try match goal with
          | H : joins _ _ _ = true |- _ =>
              unfold joins in H; rewrite Hssm in H; discriminate
          end.
    all: open_trace; filter_trace; reflexivity.
  - intros Hbound.
    destruct (branch_of_run pf env cfg vs Hbound)
      as [(Hj & _) | (_ & _ & ? & ?)]; [| done].
    unfold joins in Hj. rewrite Hssm in Hj. discriminate.
Qed.

(** Without IP_ADD_SOURCE_MEMBERSHIP, a socket bound to 239.255.12.42
    with no source given: no join. *)
Lemma no_join_without_source_membership_witness :
  List.filter is_join
    (logged without_source_membership
       (test_env without_source_membership accepts_all None 16)
       (receive_group "") ∅) = [].
Proof.
  apply (no_join_without_source_membership without_source_membership
           (test_env without_source_membership accepts_all None 16)
           (receive_group "") ∅).
  reflexivity.
Defined.
